(** * Optris thermal camera debug tool: format catalog, camera session and
      acquisition loop

    A shallow embedding of [optris_camera_debug_tool.py].

    - [Text] and [Re]: Python [str] values and the handful of regular
      expressions the parser uses.
    - [FormatsDefParser]: the parser of [Formats.def] and its queries.
    - [Sdk], [CameraManager], [PaletteManager], [ThermalCameraApp]: the
      session around [libirimager.dll] and the timer callback
      [update_frame].

    Conventions.  A Python [str] is a [string] whose characters are the
    code points U+0000..U+00FF.  A Python [int] is a [Z].  The temperature
    of a raw sample is a binary64 [float], computed as numpy computes it.
    A Python [float] that only stores a time stamp, a frame rate or a value
    handed through is a [Q] (its exact value; rounding to a double is not
    modelled).  The mean over the float32 copy of the thermal buffer is not
    computed: the label that shows it carries the samples.  A Python [dict] keeps
    insertion order and is an association list here; a Python [set] is a
    [gset].  An exception is a value of [exn] carried by [py_result]. *)

From Stdlib Require Import String Ascii ZArith QArith Permutation.
From Stdlib Require Import Uint63 PrimFloat.
From stdpp Require Import base decidable option list gmap strings sorting.

Local Open Scope string_scope.
Local Open Scope Z_scope.
Local Open Scope list_scope.

#[local] Set Warnings "-clear-no-such-hyp".

(** ** Python runtime values *)

Inductive exn :=
| KeyError (key : string)
| ValueError
| IndexError.

Inductive py_result (A : Type) :=
| Ok (a : A)
| Raise (e : exn).
Arguments Ok {A} a.
Arguments Raise {A} e.

Definition py_bind {A B} (m : py_result A) (k : A → py_result B) : py_result B :=
  match m with
  | Ok a => k a
  | Raise e => Raise e
  end.

#[global] Instance py_result_bind : MBind py_result :=
  λ A B k m, py_bind m k.
#[global] Instance py_result_ret : MRet py_result := λ A a, Ok a.

(** ** Text *)

Module Text.

Definition code (c : ascii) : N := N_of_ascii c.

(** [str.isspace] on one character below U+0100: TAB, LF, VT, FF, CR, the
    four separators FS..US, SPACE, NEL and NBSP.  The class [\s] of [re]
    on a [str] pattern is the same set. *)
Definition is_space (c : ascii) : bool :=
  let n := code c in
  ((9 <=? n) && (n <=? 13) || (28 <=? n) && (n <=? 32)
   || (n =? 133) || (n =? 160))%N.

(** The class [\d] below U+0100. *)
Definition is_digit (c : ascii) : bool :=
  let n := code c in ((48 <=? n) && (n <=? 57))%N.

(** [str.lower] on one character below U+0100. *)
Definition lower_char (c : ascii) : ascii :=
  let n := code c in
  if ((65 <=? n) && (n <=? 90)
      || (192 <=? n) && (n <=? 222) && negb (n =? 215))%N
  then ascii_of_N (n + 32) else c.

Fixpoint lower (s : string) : string :=
  match s with
  | EmptyString => EmptyString
  | String c s' => String (lower_char c) (lower s')
  end.

Definition is_empty (s : string) : bool :=
  match s with EmptyString => true | _ => false end.

(** [strip_prefix ci p s] removes the literal [p] from the front of [s];
    with [ci] the comparison ignores case. *)
Fixpoint strip_prefix (ci : bool) (p s : string) : option string :=
  match p with
  | EmptyString => Some s
  | String a p' =>
      match s with
      | EmptyString => None
      | String b s' =>
          if (if ci then Ascii.eqb (lower_char a) (lower_char b)
              else Ascii.eqb a b)
          then strip_prefix ci p' s' else None
      end
  end.

(** [find_sub p s]: the text before the leftmost occurrence of [p] in [s]
    and the text after it. *)
Fixpoint find_sub (p s : string) : option (string * string) :=
  match strip_prefix false p s with
  | Some rest => Some (EmptyString, rest)
  | None =>
      match s with
      | EmptyString => None
      | String c s' =>
          match find_sub p s' with
          | Some (before, rest) => Some (String c before, rest)
          | None => None
          end
      end
  end.

(** [sub in s]. *)
Definition contains (sub s : string) : bool :=
  match find_sub sub s with Some _ => true | None => false end.

(** The longest prefix of [s] whose characters are all in [cls], and what
    follows it. *)
Fixpoint span (cls : ascii → bool) (s : string) : string * string :=
  match s with
  | EmptyString => (EmptyString, EmptyString)
  | String c s' =>
      if cls c then let '(m, r) := span cls s' in (String c m, r)
      else (EmptyString, s)
  end.

(** [str.split()] with no argument: the maximal runs of non-space
    characters.  [tok] is the run being read. *)
Fixpoint split_aux (tok s : string) : list string :=
  match s with
  | EmptyString => if is_empty tok then [] else [tok]
  | String c s' =>
      if is_space c
      then (if is_empty tok then split_aux EmptyString s'
            else tok :: split_aux EmptyString s')
      else split_aux (tok +:+ String c EmptyString) s'
  end.

Definition split (s : string) : list string := split_aux EmptyString s.

(** [int(s)] for a string of decimal digits. *)
Definition digit_val (c : ascii) : Z := Z.of_N (code c) - 48.

Fixpoint int_acc (acc : Z) (s : string) : Z :=
  match s with
  | EmptyString => acc
  | String c s' => int_acc (10 * acc + digit_val c) s'
  end.

Definition int (s : string) : Z := int_acc 0 s.

Fixpoint count_char (p : ascii → bool) (s : string) : nat :=
  match s with
  | EmptyString => O
  | String c s' => (if p c then 1 else 0)%nat + count_char p s'
  end.

Definition is_dot (c : ascii) : bool := Ascii.eqb c ".".

(** [float(s)] for a string over the digits and the dot, which is all
    the parser passes to it: [ValueError] unless there is a digit and at
    most one dot; otherwise the decimal value. *)
Definition float (s : string) : py_result Q :=
  let '(ip, rest) := span is_digit s in
  let fp := match rest with String _ r => r | EmptyString => EmptyString end in
  if (count_char is_dot s <=? 1)%nat && (0 <? count_char is_digit s)%nat
  then Ok (Qred (Qmake (int (ip +:+ fp))
                       (Z.to_pos (10 ^ Z.of_nat (String.length fp)))))
  else Raise ValueError.

End Text.

(** ** Regular expressions

    The patterns of the parser are sequences of literals and of greedy
    repetitions of one character class.  In each of them a repetition is
    followed by a literal outside its class, or ends the pattern, so the
    longest run, which [re] tries first, is the only one that can lead to a
    match: matching needs no backtracking inside a start position. *)

Module Re.

Inductive atom :=
| Lit (s : string)               (* literal text *)
| LitI (s : string)              (* literal text under re.IGNORECASE *)
| Star (cls : ascii → bool)      (* cls*  *)
| Plus (cls : ascii → bool)      (* cls+  *)
| Group (cls : ascii → bool).    (* (cls+), a capturing group *)

Definition other_than (c : ascii) : ascii → bool :=
  λ x, negb (Ascii.eqb x c).

Definition digit_or_dot (c : ascii) : bool :=
  Text.is_digit c || Text.is_dot c.

(** [re.match] at the start of [s]: the captured groups, in order. *)
Fixpoint match_here (pat : list atom) (s : string) : option (list string) :=
  match pat with
  | [] => Some []
  | Lit l :: pat' =>
      match Text.strip_prefix false l s with
      | Some r => match_here pat' r
      | None => None
      end
  | LitI l :: pat' =>
      match Text.strip_prefix true l s with
      | Some r => match_here pat' r
      | None => None
      end
  | Star cls :: pat' => match_here pat' (Text.span cls s).2
  | Plus cls :: pat' =>
      let '(m, r) := Text.span cls s in
      if Text.is_empty m then None else match_here pat' r
  | Group cls :: pat' =>
      let '(m, r) := Text.span cls s in
      if Text.is_empty m then None
      else match match_here pat' r with
           | Some caps => Some (m :: caps)
           | None => None
           end
  end.

(** [re.search]: the match at the leftmost start position that has one. *)
Fixpoint search (pat : list atom) (s : string) : option (list string) :=
  match match_here pat s with
  | Some caps => Some caps
  | None =>
      match s with
      | EmptyString => None
      | String _ s' => search pat s'
      end
  end.

(** [m.group(1)] of a pattern with one group. *)
Definition group1 (pat : list atom) (s : string) : option string :=
  match search pat s with
  | Some [g] => Some g
  | _ => None
  end.

(** [re.findall(r'\[Format\](.*?)\[Format end\]', content, re.DOTALL)]:
    from the first opening tag, the text up to the first closing tag after
    it; then again behind that closing tag.  An opening tag with no
    closing tag behind it ends the scan, since no later start can match
    either. *)
Fixpoint findall_blocks (fuel : nat) (content : string) : list string :=
  match fuel with
  | O => []
  | S fuel' =>
      match Text.find_sub "[Format]" content with
      | None => []
      | Some (_, opened) =>
          match Text.find_sub "[Format end]" opened with
          | None => []
          | Some (block, rest) => block :: findall_blocks fuel' rest
          end
      end
  end.

Definition format_blocks (content : string) : list string :=
  findall_blocks (String.length content) content.

End Re.

(** ** FormatsDefParser *)

Module FormatsDefParser.

Definition dquote : ascii := ascii_of_N 34.

(** The dictionary [format_info] of one block: the key [guid] is always
    there, every other key only when its field matched. *)
Record format_info := {
  guid : string;
  name : option string;
  width : option Z;
  height : option Z;
  fps : option Q;
  hwrev : option string;
  fwrev : option string;
  device_width : option Z;
  device_height : option Z;
  device_fps : option Q
}.

(** [d[k] = v] on an insertion-ordered dictionary: an existing key keeps
    its place, a new key goes last. *)
Fixpoint dict_set {V} (k : string) (v : V) (d : list (string * V))
  : list (string * V) :=
  match d with
  | [] => [(k, v)]
  | (k', v') :: d' =>
      if decide (k' = k) then (k, v) :: d' else (k', v') :: dict_set k v d'
  end.

Fixpoint dict_get {V} (k : string) (d : list (string * V)) : option V :=
  match d with
  | [] => None
  | (k', v) :: d' => if decide (k' = k) then Some v else dict_get k d'
  end.

Definition guid_re : list Re.atom :=
  [Re.Lit "Guid"; Re.Star Text.is_space; Re.Lit "="; Re.Star Text.is_space;
   Re.Lit "{"; Re.Group (Re.other_than "}"); Re.Lit "}"].

Definition replaces_re : list Re.atom :=
  [Re.LitI "replaces"; Re.Star Text.is_space;
   Re.Lit "{"; Re.Group (Re.other_than "}"); Re.Lit "}"].

Definition name_re : list Re.atom :=
  [Re.Lit "Name"; Re.Star Text.is_space; Re.Lit "="; Re.Star Text.is_space;
   Re.Lit (String dquote EmptyString); Re.Group (Re.other_than dquote);
   Re.Lit (String dquote EmptyString)].

Definition resolution_re (key : string) : list Re.atom :=
  [Re.Lit key; Re.Star Text.is_space; Re.Lit "="; Re.Star Text.is_space;
   Re.Group Text.is_digit; Re.Plus Text.is_space;
   Re.Group Text.is_digit; Re.Plus Text.is_space;
   Re.Group Re.digit_or_dot].

Definition out_re : list Re.atom := resolution_re "Out".
Definition device_res_re : list Re.atom := resolution_re "DeviceRes".

Definition rev_re (key : string) : list Re.atom :=
  [Re.Lit key; Re.Star Text.is_space; Re.Lit "="; Re.Star Text.is_space;
   Re.Lit "("; Re.Group (Re.other_than ")"); Re.Lit ")"].

Definition hwrev_re : list Re.atom := rev_re "HWRev".
Definition fwrev_re : list Re.atom := rev_re "FWRev".

(** The pieces of the loop body, one per test or extraction. *)

Definition block_guid (block : string) : option string :=
  Re.group1 guid_re block.

Definition block_deprecated (block : string) : bool :=
  Text.contains "this format is deprecated" (Text.lower block).

Definition block_replaces (block : string) : option string :=
  Re.group1 replaces_re block.

(** [int(m.group(1))], [int(m.group(2))], [float(m.group(3))]; the last
    one can raise. *)
Definition read_resolution (re : list Re.atom) (block : string)
  : py_result (option (Z * Z * Q)) :=
  match Re.search re block with
  | Some [w; h; f] =>
      q ← Text.float f; Ok (Some (Text.int w, Text.int h, q))
  | _ => Ok None
  end.

(** The dictionary built for a block that has the GUID [g] and no
    deprecation marker. *)
Definition block_info (g block : string) : py_result format_info :=
  out ← read_resolution out_re block;
  dev ← read_resolution device_res_re block;
  Ok {| guid := g;
        name := Re.group1 name_re block;
        width := (λ r, r.1.1) <$> out;
        height := (λ r, r.1.2) <$> out;
        fps := (λ r, r.2) <$> out;
        hwrev := Re.group1 hwrev_re block;
        fwrev := Re.group1 fwrev_re block;
        device_width := (λ r, r.1.1) <$> dev;
        device_height := (λ r, r.1.2) <$> dev;
        device_fps := (λ r, r.2) <$> dev |}.

Record loop_state := {
  formats_by_guid : list (string * format_info);
  deprecated_guids : gset string
}.

(** One iteration of [for block in format_blocks].  [format_info] holds
    the key [guid] by then, so the test [if format_info:] always passes. *)
Definition process_block (st : loop_state) (block : string)
  : py_result loop_state :=
  match block_guid block with
  | None => Ok st
  | Some g =>
      if block_deprecated block then
        Ok {| formats_by_guid := formats_by_guid st;
              deprecated_guids := {[g]} ∪ deprecated_guids st |}
      else
        let dep := match block_replaces block with
                   | Some replaced_guid => {[replaced_guid]} ∪ deprecated_guids st
                   | None => deprecated_guids st
                   end in
        info ← block_info g block;
        Ok {| formats_by_guid := dict_set g info (formats_by_guid st);
              deprecated_guids := dep |}
  end.

Fixpoint scan_blocks (st : loop_state) (blocks : list string)
  : py_result loop_state :=
  match blocks with
  | [] => Ok st
  | block :: blocks' =>
      st' ← process_block st block; scan_blocks st' blocks'
  end.

Definition empty_state : loop_state :=
  {| formats_by_guid := []; deprecated_guids := ∅ |}.

Definition retained (st : loop_state) : list format_info :=
  (filter (λ kv, kv.1 ∉ deprecated_guids st) (formats_by_guid st)).*2.

(** The body of the [try]: on an exception [self.formats] keeps the empty
    list [__init__] gave it. *)
Definition parse_blocks (blocks : list string) : list format_info :=
  match scan_blocks empty_state blocks with
  | Ok st => retained st
  | Raise _ => []
  end.

Definition parse_formats_file (content : string) : list format_info :=
  parse_blocks (Re.format_blocks content).

(** [FormatsDefParser(path).formats]; [None] is a file that cannot be
    read. *)
Definition load (file : option string) : list format_info :=
  match file with
  | Some content => parse_formats_file content
  | None => []
  end.

Definition get_formats_by_resolution (formats : list format_info)
    (w h : Z) : list format_info :=
  foldl (λ matching_formats fmt,
           if decide (width fmt = Some w ∧ height fmt = Some h)
           then matching_formats ++ [fmt] else matching_formats)
        [] formats.

Definition get_all_formats (formats : list format_info) : list format_info :=
  formats.

(** One iteration of the grouping loop.  [fmt['name']] raises when the
    key is missing; a name with no token leaves [models] as it is. *)
Definition group_step (models : list (string * list format_info))
    (fmt : format_info) : py_result (list (string * list format_info)) :=
  match name fmt with
  | None => Raise (KeyError "name")
  | Some n =>
      match Text.split n with
      | [] => Ok models
      | model_name :: _ =>
          let group := default [] (dict_get model_name models) in
          Ok (dict_set model_name (group ++ [fmt]) models)
      end
  end.

Fixpoint group_loop (models : list (string * list format_info))
    (formats : list format_info)
  : py_result (list (string * list format_info)) :=
  match formats with
  | [] => Ok models
  | fmt :: formats' =>
      models' ← group_step models fmt; group_loop models' formats'
  end.

Definition get_formats_grouped_by_model (formats : list format_info)
  : py_result (list (string * list format_info)) :=
  group_loop [] formats.

End FormatsDefParser.

(** ** The library [libirimager.dll] *)

Module Sdk.

(** The functions of the library that the tool calls, with the arguments
    that matter. *)
Inductive call :=
| evo_irimager_usb_init (xml_path : string)
| evo_irimager_get_thermal_image_size
| evo_irimager_get_palette_image_size
| evo_irimager_get_serial
| evo_irimager_get_thermal_palette_image_metadata (tw th pw ph : Z)
| evo_irimager_set_palette (id : Z)
| evo_irimager_set_shutter_mode (mode : Z)
| evo_irimager_trigger_shutter_flag
| evo_irimager_terminate.

(** [EvoIRFrameMetadata]. *)
Record metadata := {
  counter : Z;
  counterHW : Z;
  timestamp : Z;
  timestampMedia : Z;
  flagState : Z;
  tempChip : Q;
  tempFlag : Q;
  tempBox : Q
}.

Definition metadata0 : metadata :=
  {| counter := 0; counterHW := 0; timestamp := 0; timestampMedia := 0;
     flagState := 0; tempChip := 0; tempFlag := 0; tempBox := 0 |}.

(** What the library and the camera answer while a session is opened. *)
Record device := {
  dll_loads : bool;
  usb_init_status : Z;
  thermal_image_size : Z * Z;
  palette_image_size : Z * Z;
  serial_status : Z;
  serial_value : Z;
  set_palette_status : Z → Z;
  set_shutter_mode_status : Z → Z
}.

(** What one call of [evo_irimager_get_thermal_palette_image_metadata]
    does: its status, and what it writes to each cell of the caller's
    two buffers and to the metadata structure. *)
Record frame := {
  status : Z;
  thermal_px : nat → Z;
  palette_px : nat → Z;
  meta : metadata
}.

End Sdk.

(** ** Effects *)

(** The texts the tool prints, by the place that prints them. *)
Inductive message :=
| MsgDllError
| MsgInitError (ret : Z)
| MsgSerial (serial : Z)
| MsgNoSerial
| MsgSizes (tw th pw ph : Z)
| MsgNoExactMatch
| MsgPaletteSet (palette_name : string)
| MsgPaletteError (palette_name : string)
| MsgShutterInitError (ret : Z)
| MsgFrameError (ret : Z)
| MsgUpdateError (e : exn)
| MsgVideoSaved.

(** What the window shows or writes. *)
Inductive output :=
| CameraInfoLabel (model_name : string) (w h serial : Z)
| ComboClear
| ComboAddItem (display_name : string) (fmt : FormatsDefParser.format_info)
| ImagePixmap (img_rgb : list Z)
| VideoWrite (frame_bgr : list Z)
| FpsLabel (fps : Q)
| TempLabel (temp_c : float) (raw_temp : Z)
| AvgTempLabel (samples : list Z)   (* the text shows the mean over the thermal buffer *)
| FlagLabel (flag_state : Z)
| ChipTempLabel (t : Q)
| FlagTempLabel (t : Q)
| BoxTempLabel (t : Q)
| FrameCounterLabel (counter : Z)
| TimestampLabel (timestamp : Z)
| ResolutionLabel (tw th pw ph : Z)
| VideoRelease.

Inductive event :=
| Call (c : Sdk.call)
| Print (m : message)
| Show (o : output).

(** A method: it reads and changes the attributes of its object, returns or
    raises, and leaves a trace of library calls, prints and outputs. *)
Definition eff (S A : Type) : Type := S → py_result A * S * list event.

Definition ret {S A} (a : A) : eff S A := λ s, (Ok a, s, []).

Definition raise {S A} (e : exn) : eff S A := λ s, (Raise e, s, []).

Definition bind {S A B} (m : eff S A) (k : A → eff S B) : eff S B :=
  λ s, match m s with
       | (Ok a, s1, t1) => let '(r, s2, t2) := k a s1 in (r, s2, t1 ++ t2)
       | (Raise e, s1, t1) => (Raise e, s1, t1)
       end.

Definition emit {S} (e : event) : eff S unit := λ s, (Ok tt, s, [e]).

Definition get {S} : eff S S := λ s, (Ok s, s, []).

Definition modify {S} (f : S → S) : eff S unit := λ s, (Ok tt, f s, []).

Definition lift {S A} (r : py_result A) : eff S A := λ s, (r, s, []).

(** [try: m except Exception as e: h e]. *)
Definition try_except {S A} (m : eff S A) (h : exn → eff S A) : eff S A :=
  λ s, match m s with
       | (Ok a, s1, t1) => (Ok a, s1, t1)
       | (Raise e, s1, t1) => let '(r, s2, t2) := h e s1 in (r, s2, t1 ++ t2)
       end.

(** A method of an attribute [T] of the object [S]. *)
Definition zoom {S T A} (proj : S → T) (upd : T → S → S) (m : eff T A)
  : eff S A :=
  λ s, let '(r, t', tr) := m (proj s) in (r, upd t' s, tr).

#[global] Instance eff_bind {S} : MBind (eff S) := λ A B k m, bind m k.
#[global] Instance eff_ret {S} : MRet (eff S) := λ A a, ret a.

Definition when {S} (b : bool) (m : eff S unit) : eff S unit :=
  if b then m else ret tt.

(** ** CameraManager *)

Module CameraManager.
Import FormatsDefParser.

Record t := {
  libir : bool;                           (* the library handle is not None *)
  formats_parser : list format_info;      (* formats_parser.formats *)
  current_format_index : Z;
  available_formats : list format_info
}.

Definition set_libir (b : bool) (cm : t) : t :=
  {| libir := b; formats_parser := formats_parser cm;
     current_format_index := current_format_index cm;
     available_formats := available_formats cm |}.

Definition set_available_formats (l : list format_info) (cm : t) : t :=
  {| libir := libir cm; formats_parser := formats_parser cm;
     current_format_index := current_format_index cm;
     available_formats := l |}.

(** [CameraManager()], given the text of [Formats.def]. *)
Definition new (formats_def : option string) : t :=
  {| libir := false; formats_parser := load formats_def;
     current_format_index := 0; available_formats := [] |}.

Record camera_info := {
  thermal_width : Z;
  thermal_height : Z;
  palette_width : Z;
  palette_height : Z;
  serial : Z
}.

Definition init_library (dev : Sdk.device) : eff t bool :=
  if Sdk.dll_loads dev then
    modify (set_libir true);; ret true
  else
    emit (Print MsgDllError);; ret false.

(** [init_camera]: [None] is the return value [False]. *)
Definition init_camera (dev : Sdk.device) (xml_path : string)
  : eff t (option camera_info) :=
  cm ← get;
  loaded ← (if libir cm then ret true else init_library dev);
  if negb loaded then ret None else
  emit (Call (Sdk.evo_irimager_usb_init xml_path));;
  let r := Sdk.usb_init_status dev in
  if decide (r ≠ 0) then
    emit (Print (MsgInitError r));; ret None
  else
    emit (Call Sdk.evo_irimager_get_thermal_image_size);;
    let '(tw, th) := Sdk.thermal_image_size dev in
    emit (Call Sdk.evo_irimager_get_palette_image_size);;
    let '(pw, ph) := Sdk.palette_image_size dev in
    emit (Call Sdk.evo_irimager_get_serial);;
    let r := Sdk.serial_status dev in
    emit (Print (if decide (r = 0) then MsgSerial (Sdk.serial_value dev)
                 else MsgNoSerial));;
    emit (Print (MsgSizes tw th pw ph));;
    cm ← get;
    let exact := get_formats_by_resolution (formats_parser cm) tw th in
    (match exact with
     | [] =>
         modify (set_available_formats (get_all_formats (formats_parser cm)));;
         emit (Print MsgNoExactMatch)
     | _ => modify (set_available_formats exact)
     end);;
    ret (Some {| thermal_width := tw; thermal_height := th;
                 palette_width := pw; palette_height := ph;
                 serial := if decide (r = 0) then Sdk.serial_value dev else 0 |}).

Definition deinit_camera : eff t unit :=
  cm ← get;
  when (libir cm) (emit (Call Sdk.evo_irimager_terminate)).

End CameraManager.

(** ** PaletteManager *)

Module PaletteManager.

Definition PALETTE_MAP : list (string * Z) :=
  [("Alarm Blue", 1); ("Pinkblue", 2); ("Bone", 3); ("Grayblack", 4);
   ("Alarm Green", 5); ("Iron", 6); ("Orange", 7); ("Medical", 8);
   ("Rain", 9); ("Rainbow", 10); ("Alarm Red", 11)].

Definition DEFAULT_PALETTE_ID : Z := 6.

Definition get_palette_id (palette_name : string) : Z :=
  default DEFAULT_PALETTE_ID
          (FormatsDefParser.dict_get palette_name PALETTE_MAP).

Definition get_available_palettes : list string := PALETTE_MAP.*1.

(** The manager holds the camera manager it was built with, so it runs
    on that object. *)
Definition set_palette (dev : Sdk.device) (palette_name : string)
  : eff CameraManager.t bool :=
  cm ← get;
  if negb (CameraManager.libir cm) then ret false else
  let palette_id := get_palette_id palette_name in
  emit (Call (Sdk.evo_irimager_set_palette palette_id));;
  ret (bool_decide (Sdk.set_palette_status dev palette_id = 0)).

End PaletteManager.

(** ** numpy buffers *)

Module Np.

(** [np.zeros([n], dtype=...)]. *)
Definition zeros (n : Z) : py_result (list Z) :=
  if decide (n < 0) then Raise ValueError else Ok (replicate (Z.to_nat n) 0).

(** [a[i]] on a flat array: a negative index counts from the end. *)
Definition getitem (a : list Z) (i : Z) : py_result Z :=
  let len := Z.of_nat (length a) in
  let j := if decide (i < 0) then i + len else i in
  if decide (0 ≤ j < len) then
    match a !! Z.to_nat j with
    | Some x => Ok x
    | None => Raise IndexError
    end
  else Raise IndexError.

(** The flat view of [a.reshape(h, w, 3)[:, :, ::-1].copy()]: the three
    channels of every pixel in reverse order.  The tool only reshapes a
    buffer made by [zeros [w * h * 3]], where one negative size would
    already have raised. *)
Fixpoint reverse_channels (a : list Z) : list Z :=
  match a with
  | b :: g :: r :: a' => r :: g :: b :: reverse_channels a'
  | _ => []
  end.

Definition reshape_reversed (a : list Z) (h w : Z) : py_result (list Z) :=
  if decide (0 ≤ h ∧ 0 ≤ w ∧ Z.of_nat (length a) = h * w * 3)
  then Ok (reverse_channels a) else Raise ValueError.

(** [float(x)] of a numpy unsigned 16-bit scalar, which is exact. *)
Definition float64 (x : Z) : float := PrimFloat.of_uint63 (Uint63.of_Z x).

(** The library writes every cell of a buffer it is handed. *)
Definition written (bits : Z) (px : nat → Z) (a : list Z) : list Z :=
  (λ i, px i `mod` 2 ^ bits) <$> seq 0 (length a).

End Np.

(** ** ThermalCameraApp *)

Module ThermalCameraApp.
Import FormatsDefParser.

Definition SHUTTER_MODE_AUTO : Z := 1.
Definition SHUTTER_MODE_MANUAL : Z := 0.

(** The attributes of the window that the session and the timer callback
    use.  Widgets are kept by what they hold: the text of the palette
    box, the check of the auto-calibration box. *)
Record t := {
  camera_manager : CameraManager.t;
  formats_parser : list format_info;
  palette_combo : string;
  auto_calib_checkbox : bool;
  thermal_width : Z;
  thermal_height : Z;
  palette_width : Z;
  palette_height : Z;
  np_thermal : list Z;
  np_img : list Z;
  metadata : Sdk.metadata;
  frame_count : Z;
  fps : Q;
  last_update_time : Q;
  recording : bool;
  video_writer : bool;               (* video_writer is not None *)
  timer : bool;                      (* timer.isActive() *)
  record_timer : bool
}.

(** [__init__] up to the call of [init_camera]. *)
Definition new (formats_def : option string) (now : Q) : t :=
  {| camera_manager := CameraManager.new formats_def;
     formats_parser := load formats_def;
     palette_combo := "Iron";
     auto_calib_checkbox := true;
     thermal_width := 0; thermal_height := 0;
     palette_width := 0; palette_height := 0;
     np_thermal := []; np_img := []; metadata := Sdk.metadata0;
     frame_count := 0; fps := 0; last_update_time := now;
     recording := false; video_writer := false;
     timer := false; record_timer := false |}.

Definition set_camera_manager (cm : CameraManager.t) (a : t) : t :=
  {| camera_manager := cm;
     formats_parser := formats_parser a; palette_combo := palette_combo a;
     auto_calib_checkbox := auto_calib_checkbox a;
     thermal_width := thermal_width a; thermal_height := thermal_height a;
     palette_width := palette_width a; palette_height := palette_height a;
     np_thermal := np_thermal a; np_img := np_img a; metadata := metadata a;
     frame_count := frame_count a; fps := fps a;
     last_update_time := last_update_time a;
     recording := recording a; video_writer := video_writer a;
     timer := timer a; record_timer := record_timer a |}.

Definition set_sizes (ci : CameraManager.camera_info) (a : t) : t :=
  {| camera_manager := camera_manager a;
     formats_parser := formats_parser a; palette_combo := palette_combo a;
     auto_calib_checkbox := auto_calib_checkbox a;
     thermal_width := CameraManager.thermal_width ci;
     thermal_height := CameraManager.thermal_height ci;
     palette_width := CameraManager.palette_width ci;
     palette_height := CameraManager.palette_height ci;
     np_thermal := np_thermal a; np_img := np_img a; metadata := metadata a;
     frame_count := frame_count a; fps := fps a;
     last_update_time := last_update_time a;
     recording := recording a; video_writer := video_writer a;
     timer := timer a; record_timer := record_timer a |}.

Definition set_buffers (thermal img : list Z) (m : Sdk.metadata) (a : t) : t :=
  {| camera_manager := camera_manager a;
     formats_parser := formats_parser a; palette_combo := palette_combo a;
     auto_calib_checkbox := auto_calib_checkbox a;
     thermal_width := thermal_width a; thermal_height := thermal_height a;
     palette_width := palette_width a; palette_height := palette_height a;
     np_thermal := thermal; np_img := img; metadata := m;
     frame_count := frame_count a; fps := fps a;
     last_update_time := last_update_time a;
     recording := recording a; video_writer := video_writer a;
     timer := timer a; record_timer := record_timer a |}.

Definition set_fps_state (count : Z) (rate anchor : Q) (a : t) : t :=
  {| camera_manager := camera_manager a;
     formats_parser := formats_parser a; palette_combo := palette_combo a;
     auto_calib_checkbox := auto_calib_checkbox a;
     thermal_width := thermal_width a; thermal_height := thermal_height a;
     palette_width := palette_width a; palette_height := palette_height a;
     np_thermal := np_thermal a; np_img := np_img a; metadata := metadata a;
     frame_count := count; fps := rate; last_update_time := anchor;
     recording := recording a; video_writer := video_writer a;
     timer := timer a; record_timer := record_timer a |}.

Definition set_video (rec writer rec_timer : bool) (a : t) : t :=
  {| camera_manager := camera_manager a;
     formats_parser := formats_parser a; palette_combo := palette_combo a;
     auto_calib_checkbox := auto_calib_checkbox a;
     thermal_width := thermal_width a; thermal_height := thermal_height a;
     palette_width := palette_width a; palette_height := palette_height a;
     np_thermal := np_thermal a; np_img := np_img a; metadata := metadata a;
     frame_count := frame_count a; fps := fps a;
     last_update_time := last_update_time a;
     recording := rec; video_writer := writer;
     timer := timer a; record_timer := rec_timer |}.

Definition set_timer (b : bool) (a : t) : t :=
  {| camera_manager := camera_manager a;
     formats_parser := formats_parser a; palette_combo := palette_combo a;
     auto_calib_checkbox := auto_calib_checkbox a;
     thermal_width := thermal_width a; thermal_height := thermal_height a;
     palette_width := palette_width a; palette_height := palette_height a;
     np_thermal := np_thermal a; np_img := np_img a; metadata := metadata a;
     frame_count := frame_count a; fps := fps a;
     last_update_time := last_update_time a;
     recording := recording a; video_writer := video_writer a;
     timer := b; record_timer := record_timer a |}.

(** A method of [self.camera_manager]. *)
Definition on_camera_manager {A} (m : eff CameraManager.t A) : eff t A :=
  zoom camera_manager set_camera_manager m.

(** [fmt['name']]. *)
Definition getitem_name (fmt : format_info) : py_result string :=
  match name fmt with
  | Some n => Ok n
  | None => Raise (KeyError "name")
  end.

(** The two texts for a model that cannot be told. *)
Definition UNKNOWN : string := "Unknown".
Definition UNKNOWN_MODEL : string := "Unknown model".

Definition detect_camera_model : eff t string :=
  a ← get;
  match get_formats_by_resolution (formats_parser a)
          (thermal_width a) (thermal_height a) with
  | fmt :: _ =>
      n ← lift (getitem_name fmt);
      match Text.split n with
      | part :: _ => ret part
      | [] => ret UNKNOWN
      end
  | [] => ret UNKNOWN_MODEL
  end.

(** [name.split(' ', 1)[1] if ' ' in name else name]. *)
Definition after_first_space (n : string) : string :=
  match Text.find_sub " " n with
  | Some (_, rest) => rest
  | None => n
  end.

Fixpoint add_items (model_name : string) (formats : list format_info)
  : eff t unit :=
  match formats with
  | [] => ret tt
  | fmt :: formats' =>
      n ← lift (getitem_name fmt);
      emit (Show (ComboAddItem (model_name +:+ ": " +:+ after_first_space n) fmt));;
      add_items model_name formats'
  end.

Fixpoint add_groups (grouped : list (string * list format_info))
  : eff t unit :=
  match grouped with
  | [] => ret tt
  | (model_name, formats) :: grouped' =>
      add_items model_name formats;; add_groups grouped'
  end.

Definition update_available_formats : eff t unit :=
  emit (Show ComboClear);;
  a ← get;
  grouped_formats ← lift (get_formats_grouped_by_model (formats_parser a));
  add_groups grouped_formats.

Definition set_palette (dev : Sdk.device) (palette_name : string)
  : eff t unit :=
  success ← on_camera_manager (PaletteManager.set_palette dev palette_name);
  emit (Print (if success : bool then MsgPaletteSet palette_name
               else MsgPaletteError palette_name)).

Definition init_camera (dev : Sdk.device) (xml_path : string) : eff t bool :=
  camera_info ← on_camera_manager (CameraManager.init_camera dev xml_path);
  match camera_info with
  | None => ret false
  | Some ci =>
      modify (set_sizes ci);;
      model_name ← detect_camera_model;
      a ← get;
      emit (Show (CameraInfoLabel model_name (thermal_width a)
                    (thermal_height a) (CameraManager.serial ci)));;
      update_available_formats;;
      thermal ← lift (Np.zeros (thermal_width a * thermal_height a));
      img ← lift (Np.zeros (palette_width a * palette_height a * 3));
      modify (set_buffers thermal img Sdk.metadata0);;
      set_palette dev (palette_combo a);;
      emit (Call (Sdk.evo_irimager_set_shutter_mode 1));;
      let r := Sdk.set_shutter_mode_status dev 1 in
      when (bool_decide (r ≠ 0)) (emit (Print (MsgShutterInitError r)));;
      ret true
  end.

Definition deinit_camera : eff t unit :=
  on_camera_manager CameraManager.deinit_camera.

Definition stop_video_recording : eff t unit :=
  a ← get;
  if negb (recording a) then ret tt else
  modify (set_video false (video_writer a) false);;
  when (video_writer a)
       (emit (Show VideoRelease);;
        modify (set_video false false false);;
        emit (Print MsgVideoSaved)).

(** [x > y] on two floats. *)
Definition Qgtb (x y : Q) : bool := negb (Qle_bool x y).

(** [(raw_temp / 10.0) - 100.0] on a numpy [uint16] scalar: a binary64
    division and a binary64 subtraction. *)
Definition celsius (raw_temp : Z) : float :=
  PrimFloat.sub (PrimFloat.div (Np.float64 raw_temp) 10%float) 100%float.

Definition center_index (a : t) : Z :=
  (thermal_height a / 2) * thermal_width a + (thermal_width a / 2).

(** The body of the [try] of [update_frame], for the answer [f] of the
    library and the value [now] of [time.time()]. *)
Definition update_frame_body (f : Sdk.frame) (now : Q) : eff t unit :=
  a ← get;
  emit (Call (Sdk.evo_irimager_get_thermal_palette_image_metadata
                (thermal_width a) (thermal_height a)
                (palette_width a) (palette_height a)));;
  modify (set_buffers (Np.written 16 (Sdk.thermal_px f) (np_thermal a))
                      (Np.written 8 (Sdk.palette_px f) (np_img a))
                      (Sdk.meta f));;
  if decide (Sdk.status f ≠ 0) then
    emit (Print (MsgFrameError (Sdk.status f)))
  else
    a ← get;
    img_rgb ← lift (Np.reshape_reversed (np_img a)
                      (palette_height a) (palette_width a));
    emit (Show (ImagePixmap img_rgb));;
    when (recording a && video_writer a)
         (emit (Show (VideoWrite (Np.reverse_channels img_rgb))));;
    modify (λ a, set_fps_state (frame_count a + 1) (fps a) (last_update_time a) a);;
    a ← get;
    let current_time := now in
    let elapsed := (current_time - last_update_time a)%Q in
    when (Qgtb elapsed (1 # 2))
         (modify (set_fps_state (frame_count a)
                    (inject_Z (frame_count a) / elapsed)%Q (last_update_time a));;
          emit (Show (FpsLabel (inject_Z (frame_count a) / elapsed)%Q));;
          modify (λ a, set_fps_state (frame_count a) (fps a) current_time a);;
          modify (λ a, set_fps_state 0 (fps a) (last_update_time a) a));;
    raw_temp ← lift (Np.getitem (np_thermal a) (center_index a));
    let temp_c := celsius raw_temp in
    emit (Show (TempLabel temp_c raw_temp));;
    emit (Show (AvgTempLabel (np_thermal a)));;
    emit (Show (FlagLabel (Sdk.flagState (metadata a))));;
    emit (Show (ChipTempLabel (Sdk.tempChip (metadata a))));;
    emit (Show (FlagTempLabel (Sdk.tempFlag (metadata a))));;
    emit (Show (BoxTempLabel (Sdk.tempBox (metadata a))));;
    emit (Show (FrameCounterLabel (Sdk.counter (metadata a))));;
    emit (Show (TimestampLabel (Sdk.timestamp (metadata a))));;
    emit (Show (ResolutionLabel (thermal_width a) (thermal_height a)
                  (palette_width a) (palette_height a))).

Definition update_frame (f : Sdk.frame) (now : Q) : eff t unit :=
  try_except (update_frame_body f now)
             (λ e, emit (Print (MsgUpdateError e))).

Definition closeEvent : eff t unit :=
  modify (set_timer false);;
  a ← get;
  modify (set_video (recording a) (video_writer a) false);;
  when (recording a) stop_video_recording;;
  on_camera_manager CameraManager.deinit_camera.

(** The end of [__init__]: open the camera and start the 100 ms timer;
    [false] is [sys.exit(1)]. *)
Definition start (dev : Sdk.device) : eff t bool :=
  ok ← init_camera dev "generic.xml";
  if ok : bool then modify (set_timer true);; ret true else ret false.

(** The timer: one call of [update_frame] per time-out while it is
    active.  Each tick comes with what the library will answer and what
    the clock will show. *)
Fixpoint ticks (l : list (Sdk.frame * Q)) : eff t unit :=
  match l with
  | [] => ret tt
  | (f, now) :: l' =>
      a ← get;
      when (timer a) (update_frame f now);;
      ticks l'
  end.

End ThermalCameraApp.

(** ** The deprecated-GUID set of a file, read off its blocks *)

Module Catalog.
Import FormatsDefParser.

(** [g] is the GUID of a block that carries the deprecation marker. *)
Definition marked_deprecated (blocks : list string) (g : string) : Prop :=
  ∃ b, b ∈ blocks ∧ block_guid b = Some g ∧ block_deprecated b = true.

(** [g] is the first [replaces {...}] reference of a block that has a
    GUID and no deprecation marker. *)
Definition superseded (blocks : list string) (g : string) : Prop :=
  ∃ b, b ∈ blocks ∧ is_Some (block_guid b) ∧ block_deprecated b = false
       ∧ block_replaces b = Some g.

Definition deprecated (blocks : list string) (g : string) : Prop :=
  marked_deprecated blocks g ∨ superseded blocks g.

(** The GUIDs that reach [formats_by_guid[guid] = format_info], in file
    order and with repetitions. *)
Definition inserted_guid (block : string) : option string :=
  match block_guid block with
  | Some g => if block_deprecated block then None else Some g
  | None => None
  end.

Definition inserted_guids (blocks : list string) : list string :=
  omap inserted_guid blocks.

(** The dictionary entry a block writes, when it writes one. *)
Definition entry (block : string) : option (string * format_info) :=
  g ← inserted_guid block;
  match block_info g block with
  | Ok info => Some (g, info)
  | Raise _ => None
  end.

(** The block makes [float] raise, which ends the whole load. *)
Definition fails (block : string) : bool :=
  match inserted_guid block with
  | Some g => match block_info g block with Ok _ => false | Raise _ => true end
  | None => false
  end.

Definition set_entry (d : list (string * format_info))
    (e : string * format_info) : list (string * format_info) :=
  dict_set e.1 e.2 d.

(** The declared output size of a format is [w] by [h]. *)
Definition has_resolution (w h : Z) (fmt : format_info) : Prop :=
  width fmt = Some w ∧ height fmt = Some h.

#[global] Instance has_resolution_dec w h fmt :
  Decision (has_resolution w h fmt).
Proof. unfold has_resolution. apply _. Defined.

(** The model name of a format: the first token of its name. *)
Definition model_of (fmt : format_info) : option string :=
  n ← name fmt; head (Text.split n).

(** Keys of [formats_by_guid] are distinct and each is the GUID stored
    under it. *)
Definition dict_ok (st : loop_state) : Prop :=
  NoDup (formats_by_guid st).*1
  ∧ Forall (λ kv, guid kv.2 = kv.1) (formats_by_guid st).

(** The group of [k] among the formats read so far, as the dictionary
    holds it: no key for an empty group. *)
Definition group_of (k : string) (formats : list format_info)
  : option (list format_info) :=
  match filter (λ fmt, model_of fmt = Some k) formats with
  | [] => None
  | l => Some l
  end.

Definition groups_ok (models : list (string * list format_info))
    (formats : list format_info) : Prop :=
  NoDup models.*1 ∧ ∀ k, dict_get k models = group_of k formats.

End Catalog.

(** ** Ticks and traces *)

Module Session.
Import ThermalCameraApp.

(** The tick reaches the frame-rate step: the library returned 0 and the
    palette buffer has the shape of the palette image. *)
Definition counted (a : t) (f : Sdk.frame) : Prop :=
  Sdk.status f = 0
  ∧ 0 ≤ palette_height a ∧ 0 ≤ palette_width a
  ∧ Z.of_nat (length (np_img a)) = palette_height a * palette_width a * 3.

(** The trace sets the frame-rate label to [x]. *)
Definition shows_fps (tr : list event) (x : Q) : Prop :=
  Show (FpsLabel x) ∈ tr.

(** The trace sets the centre label from the raw sample [x]. *)
Definition shows_temp (tr : list event) (x : Z) : Prop :=
  Show (TempLabel (celsius x) x) ∈ tr.

(** The temperature of [raw] is a number between -100 and 6453.5. *)
Definition celsius_in_range (raw : Z) : bool :=
  (PrimFloat.leb (-100)%float (celsius raw)
   && PrimFloat.leb (celsius raw) 6453.5%float)%bool.

(** [celsius_in_range] on the [n] sample values from [raw] on. *)
Fixpoint celsius_in_range_from (raw : Z) (n : nat) : bool :=
  match n with
  | O => true
  | S n' => celsius_in_range raw && celsius_in_range_from (raw + 1) n'
  end.



(** The device [dev] with another answer to
    [evo_irimager_set_shutter_mode]. *)
Definition with_shutter_mode_status (status : Z → Z) (dev : Sdk.device)
  : Sdk.device :=
  {| Sdk.dll_loads := Sdk.dll_loads dev;
     Sdk.usb_init_status := Sdk.usb_init_status dev;
     Sdk.thermal_image_size := Sdk.thermal_image_size dev;
     Sdk.palette_image_size := Sdk.palette_image_size dev;
     Sdk.serial_status := Sdk.serial_status dev;
     Sdk.serial_value := Sdk.serial_value dev;
     Sdk.set_palette_status := Sdk.set_palette_status dev;
     Sdk.set_shutter_mode_status := status |}.

End Session.

(** Unfold the plumbing of [eff], leaving the tests of the method. *)
Ltac run_eff :=
  cbv beta iota zeta delta
    [mbind eff_bind bind mret eff_ret ret raise get modify emit lift when
     zoom try_except ThermalCameraApp.on_camera_manager].

(** Take the next method call of [init_camera] apart. *)
Ltac next_stage :=
  match goal with
  | |- context [ThermalCameraApp.detect_camera_model ?s] =>
      destruct (ThermalCameraApp.detect_camera_model s) as [[[?|?] ?] ?]
  | |- context [ThermalCameraApp.update_available_formats ?s] =>
      destruct (ThermalCameraApp.update_available_formats s) as [[[[]|?] ?] ?]
  | |- context [Np.zeros ?n] => destruct (Np.zeros n)
  | |- context [ThermalCameraApp.set_palette ?d ?n ?s] =>
      destruct (ThermalCameraApp.set_palette d n s) as [[[[]|?] ?] ?]
  end; simpl.

(** ** Sample catalog files *)

Module Samples.
Import FormatsDefParser.

Definition quoted (s : string) : string :=
  String dquote (s +:+ String dquote EmptyString).

Definition newline : string := String (ascii_of_N 10) EmptyString.

Fixpoint lines (l : list string) : string :=
  match l with
  | [] => EmptyString
  | x :: l' => x +:+ newline +:+ lines l'
  end.

(** A deprecated block that names [B] in a [replaces] reference. *)
Definition replaced_by_deprecated : string := lines
  [ "[Format]"; "Guid = {A}"; "Name = " +:+ quoted "PI 640 v2";
    "; this format is deprecated"; "; replaces {B}";
    "Out = 640 480 32.0"; "[Format end]";
    "[Format]"; "Guid = {B}"; "Name = " +:+ quoted "PI 640";
    "Out = 640 480 32.0"; "[Format end]" ].

(** A block with two [replaces] references, [B] being the second. *)
Definition replaces_twice : string := lines
  [ "[Format]"; "Guid = {A}"; "Name = " +:+ quoted "PI 640 v3";
    "; replaces {C}"; "; replaces {B}";
    "Out = 640 480 32.0"; "[Format end]";
    "[Format]"; "Guid = {B}"; "Name = " +:+ quoted "PI 640";
    "Out = 640 480 32.0"; "[Format end]" ].

(** A block without a GUID that names [B] in a [replaces] reference. *)
Definition replaced_by_anonymous : string := lines
  [ "[Format]"; "Name = " +:+ quoted "PI 640 v2"; "; replaces {B}";
    "Out = 640 480 32.0"; "[Format end]";
    "[Format]"; "Guid = {B}"; "Name = " +:+ quoted "PI 640";
    "Out = 640 480 32.0"; "[Format end]" ].

(** Two blocks with one GUID, in the two possible orders. *)
Definition same_guid_first : string := lines
  [ "[Format]"; "Guid = {G}"; "Name = " +:+ quoted "PI 640";
    "Out = 640 480 32.0"; "[Format end]";
    "[Format]"; "Guid = {G}"; "Name = " +:+ quoted "PI 400";
    "Out = 382 288 80.0"; "[Format end]" ].

Definition same_guid_second : string := lines
  [ "[Format]"; "Guid = {G}"; "Name = " +:+ quoted "PI 400";
    "Out = 382 288 80.0"; "[Format end]";
    "[Format]"; "Guid = {G}"; "Name = " +:+ quoted "PI 640";
    "Out = 640 480 32.0"; "[Format end]" ].



(** A format whose name holds no token. *)
Definition blank_name : string := lines
  [ "[Format]"; "Guid = {A}"; "Name = " +:+ quoted " ";
    "Out = 640 480 32.0"; "[Format end]" ].

(** A format without the field [Name]. *)
Definition no_name : string := lines
  [ "[Format]"; "Guid = {A}"; "Out = 640 480 32.0"; "[Format end]" ].

(** The blocks of [catalog] below, in another order. *)
Definition catalog_reordered : string := lines
  [ "[Format]"; "Guid = {D4}"; "Name = " +:+ quoted "Xi 400 old";
    "Out = 382 288 27"; "[Format end]";
    "[Format]"; "Guid = {C3}"; "; Replaces {D4}";
    "Name = " +:+ quoted "Xi 400"; "Out = 382 288 80";
    "DeviceRes = 382 290 80.5"; "[Format end]";
    "[Format]"; "Guid={B2}"; "; This format is DEPRECATED";
    "Name = " +:+ quoted "PI 640 old"; "Out = 640 480 32.0"; "[Format end]";
    "[Format]"; "Guid = {A1}"; "Name = " +:+ quoted "PI 640 32Hz";
    "Out = 640 480 32.0"; "HWRev = (1 - 5)"; "[Format end]" ].

(** A catalog of four blocks: one deprecated, one replaced. *)
Definition catalog : string := lines
  [ "[Format]"; "Guid = {A1}"; "Name = " +:+ quoted "PI 640 32Hz";
    "Out = 640 480 32.0"; "HWRev = (1 - 5)"; "[Format end]";
    "[Format]"; "Guid={B2}"; "; This format is DEPRECATED";
    "Name = " +:+ quoted "PI 640 old"; "Out = 640 480 32.0"; "[Format end]";
    "[Format]"; "Guid = {C3}"; "; Replaces {D4}";
    "Name = " +:+ quoted "Xi 400"; "Out = 382 288 80";
    "DeviceRes = 382 290 80.5"; "[Format end]";
    "[Format]"; "Guid = {D4}"; "Name = " +:+ quoted "Xi 400 old";
    "Out = 382 288 27"; "[Format end]" ].



(** A camera of 8x6 pixels that refuses every shutter mode with status
    [-1]. *)
Definition camera_refusing_shutter_mode : Sdk.device :=
  {| Sdk.dll_loads := true;
     Sdk.usb_init_status := 0;
     Sdk.thermal_image_size := (8, 6);
     Sdk.palette_image_size := (8, 6);
     Sdk.serial_status := 0;
     Sdk.serial_value := 12345;
     Sdk.set_palette_status := λ _, 0;
     Sdk.set_shutter_mode_status := λ _, -1 |}.

(** A frame the library fails to deliver, and one it delivers with every
    thermal sample at 1000 and every palette byte at 0. *)
Definition failed_frame : Sdk.frame :=
  {| Sdk.status := -1; Sdk.thermal_px := λ _, 0; Sdk.palette_px := λ _, 0;
     Sdk.meta := Sdk.metadata0 |}.

Definition flat_frame : Sdk.frame :=
  {| Sdk.status := 0; Sdk.thermal_px := λ _, 1000; Sdk.palette_px := λ _, 0;
     Sdk.meta := Sdk.metadata0 |}.

(** A small window state: a loaded library and a 4x2 sensor. *)
Definition small_app : ThermalCameraApp.t :=
  ThermalCameraApp.set_timer true
    (ThermalCameraApp.set_buffers (replicate 8 0) (replicate 24 0) Sdk.metadata0
       (ThermalCameraApp.set_sizes
          {| CameraManager.thermal_width := 4;
             CameraManager.thermal_height := 2;
             CameraManager.palette_width := 4;
             CameraManager.palette_height := 2;
             CameraManager.serial := 0 |}
          (ThermalCameraApp.set_camera_manager
             (CameraManager.set_libir true (CameraManager.new None))
             (ThermalCameraApp.new None 0)))).

End Samples.


(** ** Well-formed text *)

Module Wf.
Import FormatsDefParser.

(** Every character of [s] is in the class [cls]. *)
Fixpoint all_chars (cls : ascii → bool) (s : string) : bool :=
  match s with
  | EmptyString => true
  | String c s' => cls c && all_chars cls s'
  end.

(** A text that a group [(cls+)] can capture. *)
Definition captured (cls : ascii → bool) (s : string) : Prop :=
  s ≠ EmptyString ∧ all_chars cls s = true.

(** The classes of the capturing groups of a pattern, in order. *)
Fixpoint group_classes (pat : list Re.atom) : list (ascii → bool) :=
  match pat with
  | [] => []
  | Re.Group cls :: pat' => cls :: group_classes pat'
  | _ :: pat' => group_classes pat'
  end.

Definition not_space (c : ascii) : bool := negb (Text.is_space c).

(** A triple of width, height and frame rate: all there or all missing,
    and none negative. *)
Definition resolution_ok (w h : option Z) (r : option Q) : Prop :=
  (w = None ∧ h = None ∧ r = None)
  ∨ (∃ wv hv rv, w = Some wv ∧ h = Some hv ∧ r = Some rv
                 ∧ 0 ≤ wv ∧ 0 ≤ hv ∧ (0 <= rv)%Q).

Definition text_ok (cls : ascii → bool) (o : option string) : Prop :=
  ∀ s, o = Some s → captured cls s.

(** What the regular expressions guarantee of every dictionary the parser
    builds. *)
Definition format_ok (fmt : format_info) : Prop :=
  captured (Re.other_than "}") (guid fmt)
  ∧ text_ok (Re.other_than dquote) (name fmt)
  ∧ text_ok (Re.other_than ")") (hwrev fmt)
  ∧ text_ok (Re.other_than ")") (fwrev fmt)
  ∧ resolution_ok (width fmt) (height fmt) (fps fmt)
  ∧ resolution_ok (device_width fmt) (device_height fmt) (device_fps fmt).

End Wf.

(** ** More sample files *)

Module Samples2.
Import FormatsDefParser.

(** A good block followed by a block whose frame rate has two dots. *)
Definition bad_rate : string := Samples.lines
  [ "[Format]"; "Guid = {A}"; "Name = " +:+ Samples.quoted "PI 640";
    "Out = 640 480 32.0"; "[Format end]";
    "[Format]"; "Guid = {B}"; "Name = " +:+ Samples.quoted "PI 400";
    "Out = 382 288 1.2.3"; "[Format end]" ].

End Samples2.

(** ** The entry that decides a GUID *)

Module Override.
Import FormatsDefParser.


End Override.

(** ** FormatsDefParser.get_filtered_formats_info *)

Module FormatsReport.
Import FormatsDefParser.

(** One entry of [details]. *)
Record detail := {
  d_guid : string;
  d_name : string;
  d_deprecated : bool;
  d_replaces : bool
}.

(** The dictionary the method returns. *)
Record report := {
  total_formats : Z;
  deprecated_count : Z;
  filtered_formats : Z;
  details : list detail
}.

(** The dictionary built for a block in which both [Guid] and [Name]
    match. *)
Definition block_detail (block : string) : option detail :=
  match block_guid block, Re.group1 name_re block with
  | Some g, Some n =>
      Some {| d_guid := g; d_name := n;
              d_deprecated := block_deprecated block;
              d_replaces := Text.contains "replaces" (Text.lower block) |}
  | _, _ => None
  end.

(** One iteration of the loop, on [all_formats] and [deprecated_count]. *)
Definition report_step (st : list detail * Z) (block : string)
  : list detail * Z :=
  match block_detail block with
  | Some d => (st.1 ++ [d], if d_deprecated d then st.2 + 1 else st.2)
  | None => st
  end.

(** [get_filtered_formats_info], given the text of the file ([None] when it
    cannot be read) and [self.formats]; the result [None] is the dictionary
    that holds the key [error]. *)
Definition get_filtered_formats_info (file : option string)
    (formats : list format_info) : option report :=
  match file with
  | None => None
  | Some content =>
      let '(all_formats, count) :=
        foldl report_step ([], 0) (Re.format_blocks content) in
      Some {| total_formats := Z.of_nat (length all_formats);
              deprecated_count := count;
              filtered_formats := Z.of_nat (length formats);
              details := all_formats |}
  end.

(** The number of entries marked deprecated. *)
Definition deprecated_details (l : list detail) : Z :=
  Z.of_nat (length (filter (λ d, d_deprecated d = true) l)).

(** Every block with a GUID has a name as well. *)
Definition guids_are_named (blocks : list string) : Prop :=
  Forall (λ b, is_Some (block_guid b) → is_Some (Re.group1 name_re b)) blocks.

End FormatsReport.

(** ** More about sessions *)

Module Session2.
Import ThermalCameraApp.

Definition is_call (e : event) : bool :=
  match e with Call _ => true | _ => false end.

(** The calls to the library in a trace, in order. *)
Definition calls (tr : list event) : list event := filter (λ e, is_call e = true) tr.

(** A camera of 8x6 pixels that answers every call with status 0. *)
Definition small_camera : Sdk.device :=
  {| Sdk.dll_loads := true;
     Sdk.usb_init_status := 0;
     Sdk.thermal_image_size := (8, 6);
     Sdk.palette_image_size := (8, 6);
     Sdk.serial_status := 0;
     Sdk.serial_value := 7;
     Sdk.set_palette_status := λ _, 0;
     Sdk.set_shutter_mode_status := λ _, 0 |}.

End Session2.

(** ** What a tick keeps *)

Module Kept.
Import ThermalCameraApp.

(** Everything a tick leaves alone: the camera manager, the catalog, the
    widgets, the four sizes, the lengths of the two buffers, the recording
    state and the two timers. *)
Definition same_session (a a' : t) : Prop :=
  camera_manager a' = camera_manager a
  ∧ formats_parser a' = formats_parser a
  ∧ palette_combo a' = palette_combo a
  ∧ auto_calib_checkbox a' = auto_calib_checkbox a
  ∧ thermal_width a' = thermal_width a
  ∧ thermal_height a' = thermal_height a
  ∧ palette_width a' = palette_width a
  ∧ palette_height a' = palette_height a
  ∧ length (np_thermal a') = length (np_thermal a)
  ∧ length (np_img a') = length (np_img a)
  ∧ recording a' = recording a
  ∧ video_writer a' = video_writer a
  ∧ timer a' = timer a
  ∧ record_timer a' = record_timer a.

(** The window after a successful [init_camera] on the session [ci] and the
    manager [cm]. *)
Definition opened (ci : CameraManager.camera_info) (cm : CameraManager.t)
    (a : t) : t :=
  set_buffers
    (replicate (Z.to_nat (CameraManager.thermal_width ci
                          * CameraManager.thermal_height ci)) 0)
    (replicate (Z.to_nat (CameraManager.palette_width ci
                          * CameraManager.palette_height ci * 3)) 0)
    Sdk.metadata0
    (set_sizes ci (set_camera_manager cm a)).

(** The item the format box shows for a format of the group [model_name]. *)
Definition combo_item (model_name : string)
    (fmt : FormatsDefParser.format_info) : event :=
  Show (ComboAddItem
          (model_name +:+ ": "
           +:+ after_first_space (default EmptyString (FormatsDefParser.name fmt)))
          fmt).

Definition group_items (group : string * list FormatsDefParser.format_info)
  : list event :=
  combo_item group.1 <$> group.2.

(** The format an item of the format box carries. *)
Definition item_data (e : event) : option FormatsDefParser.format_info :=
  match e with
  | Show (ComboAddItem _ fmt) => Some fmt
  | _ => None
  end.

(** The format has a name with at least one token. *)
Definition has_model (fmt : FormatsDefParser.format_info) : Prop :=
  is_Some (Catalog.model_of fmt).

Definition nameless (fmt : FormatsDefParser.format_info) : Prop :=
  FormatsDefParser.name fmt = None.

(** The line [update_frame] prints when its [try] catches an exception. *)
Definition update_error (e : event) : bool :=
  match e with
  | Print (MsgUpdateError _) => true
  | _ => false
  end.

(** The centre-temperature label is set. *)
Definition temp_shown (e : event) : bool :=
  match e with
  | Show (TempLabel _ _) => true
  | _ => false
  end.

(** The library answers the tick with status 0. *)
Definition delivered (tick : Sdk.frame * Q) : bool :=
  bool_decide (Sdk.status tick.1 = 0).

(** A running session whose buffers have the shape of its positive thermal
    and non-negative palette sizes. *)
Definition ready (a : t) : Prop :=
  timer a = true
  ∧ 0 < thermal_width a ∧ 0 < thermal_height a
  ∧ 0 ≤ palette_width a ∧ 0 ≤ palette_height a
  ∧ Z.of_nat (length (np_thermal a)) = thermal_width a * thermal_height a
  ∧ Z.of_nat (length (np_img a)) = palette_height a * palette_width a * 3.

End Kept.

(** * Properties of the format catalog *)

(** The scan for blocks never runs out of fuel: each block it finds takes
    its two tags out of the text that is left. *)
Section blocks.

Lemma strip_prefix_length ci (p s r : string) :
  Text.strip_prefix ci p s = Some r →
  String.length s = (String.length p + String.length r)%nat.
Proof.
  revert s. induction p as [|a p IH]; intros [|b s]; simpl; try done.
  - by intros [= <-].
  - by intros [= <-].
  - case_match; [|done]. intros Hr. by rewrite (IH _ Hr).
Qed.

Lemma find_sub_length (p s before rest : string) :
  Text.find_sub p s = Some (before, rest) →
  String.length s
  = (String.length before + String.length p + String.length rest)%nat.
Proof.
  revert before. induction s as [|c s IH]; intros before; simpl.
  - destruct (Text.strip_prefix false p "") as [r|] eqn:Hp; [|done].
    intros [= <- <-]. apply strip_prefix_length in Hp. simpl in *. lia.
  - destruct (Text.strip_prefix false p (String c s)) as [r|] eqn:Hp.
    + intros [= <- <-]. apply strip_prefix_length in Hp. simpl in *. lia.
    + destruct (Text.find_sub p s) as [[b r]|]; [|done].
      intros [= <- <-]. simpl. by rewrite (IH b eq_refl).
Qed.

Lemma findall_blocks_fuel n : ∀ m content,
  (String.length content ≤ n)%nat → (String.length content ≤ m)%nat →
  Re.findall_blocks n content = Re.findall_blocks m content.
Proof.
  induction n as [|n IH]; intros m content Hn Hm.
  - destruct content; [|simpl in Hn; lia]. by destruct m.
  - destruct m as [|m].
    + destruct content; [done|simpl in Hm; lia].
    + simpl.
      destruct (Text.find_sub "[Format]" content) as [[b1 opened]|] eqn:H1;
        [|done].
      destruct (Text.find_sub "[Format end]" opened) as [[block rest]|] eqn:H2;
        [|done].
      apply find_sub_length in H1, H2. simpl in H1, H2.
      f_equal. apply IH; lia.
Qed.

(** [format_blocks] by its own equation, without fuel. *)
Lemma format_blocks_unfold content :
  Re.format_blocks content
  = match Text.find_sub "[Format]" content with
    | None => []
    | Some (_, opened) =>
        match Text.find_sub "[Format end]" opened with
        | None => []
        | Some (block, rest) => block :: Re.format_blocks rest
        end
    end.
Proof.
  unfold Re.format_blocks.
  destruct (Text.find_sub "[Format]" content) as [[b1 opened]|] eqn:H1.
  - destruct (Text.find_sub "[Format end]" opened) as [[block rest]|] eqn:H2.
    + pose proof (find_sub_length _ _ _ _ H1) as L1.
      pose proof (find_sub_length _ _ _ _ H2) as L2. simpl in L1, L2.
      destruct (String.length content) as [|n] eqn:Hlen; [lia|].
      simpl. rewrite H1, H2. f_equal. apply findall_blocks_fuel; lia.
    + destruct (String.length content); simpl; [done|]. by rewrite H1, H2.
  - destruct (String.length content); simpl; [done|]. by rewrite H1.
Qed.

End blocks.

Section dictionary.
Context {V : Type}.
Implicit Types (d : list (string * V)) (k : string) (v : V).
Import FormatsDefParser.

Lemma dict_set_keys_fresh k v d :
  k ∉ d.*1 → dict_set k v d = d ++ [(k, v)].
Proof.
  induction d as [|[k' v'] d IH]; simpl; [done|].
  intros Hk. apply not_elem_of_cons in Hk as [Hne Hk].
  case_decide; [congruence|]. by rewrite IH.
Qed.

Lemma dict_set_keys_present k v d :
  k ∈ d.*1 → (dict_set k v d).*1 = d.*1.
Proof.
  induction d as [|[k' v'] d IH]; simpl; [by intros ?%elem_of_nil|].
  intros Hk. case_decide; simplify_eq/=; [done|].
  apply elem_of_cons in Hk as [?|Hk]; [congruence|]. by rewrite IH.
Qed.

Lemma dict_set_keys_elem k k' v d :
  k' ∈ (dict_set k v d).*1 ↔ k' = k ∨ k' ∈ d.*1.
Proof.
  destruct (decide (k ∈ d.*1)) as [Hin|Hout].
  - rewrite dict_set_keys_present by done. naive_solver.
  - rewrite dict_set_keys_fresh by done. rewrite fmap_app. set_solver.
Qed.

Lemma dict_set_NoDup k v d : NoDup d.*1 → NoDup (dict_set k v d).*1.
Proof.
  intros Hd. destruct (decide (k ∈ d.*1)) as [Hin|Hout].
  - by rewrite dict_set_keys_present.
  - rewrite dict_set_keys_fresh, fmap_app by done. simpl.
    apply NoDup_app. split_and!; [done| |apply NoDup_singleton].
    intros x Hx ->%list_elem_of_singleton. done.
Qed.

Lemma dict_set_elem k v d kv :
  kv ∈ dict_set k v d → kv = (k, v) ∨ kv ∈ d.
Proof.
  induction d as [|[k' v'] d IH]; simpl.
  - intros ->%list_elem_of_singleton. by left.
  - case_decide; simplify_eq/=.
    + intros [->|?]%elem_of_cons; [by left|]. right. by constructor.
    + intros [->|?]%elem_of_cons; [right; by constructor|].
      destruct IH as [?|?]; [done|by left|]. right. by constructor.
Qed.

End dictionary.

Section parser.
Import FormatsDefParser Catalog.
Implicit Types (st : loop_state) (b block g : string) (blocks : list string).

Lemma block_info_guid g block info :
  block_info g block = Ok info → guid info = g.
Proof.
  unfold block_info. intros H.
  destruct (read_resolution out_re block); simpl in H; [|done].
  destruct (read_resolution device_res_re block); simpl in H; [|done].
  by simplify_eq.
Qed.

Lemma process_block_ok st block st' :
  process_block st block = Ok st' → Catalog.dict_ok st → Catalog.dict_ok st'.
Proof.
  unfold process_block. intros H [Hnd Hall].
  destruct (block_guid block) as [g|]; [|by simplify_eq].
  destruct (block_deprecated block); [by simplify_eq|].
  destruct (block_info g block) as [info|] eqn:Hinfo; simpl in H; [|done].
  simplify_eq. split; simpl.
  - by apply dict_set_NoDup.
  - apply Forall_forall. intros kv [->|Hin]%dict_set_elem.
    + simpl. by eapply block_info_guid.
    + by eapply (proj1 (Forall_forall _ _) Hall).
Qed.

Lemma process_block_deprecated st block st' :
  process_block st block = Ok st' →
  ∀ g, g ∈ deprecated_guids st' ↔
       g ∈ deprecated_guids st ∨ deprecated [block] g.
Proof.
  unfold process_block, deprecated, marked_deprecated, superseded.
  intros H g.
  destruct (block_guid block) as [gb|] eqn:Hg.
  - destruct (block_deprecated block) eqn:Hd.
    + simplify_eq; simpl. rewrite elem_of_union, elem_of_singleton. split.
      * intros [->|?]; [|by left]. right. left. exists block.
        split_and!; [by constructor|done..].
      * intros [?|[(b&->%list_elem_of_singleton&?&?)
                  |(b&->%list_elem_of_singleton&?&?&?)]];
          [by right|left; congruence|congruence].
    + destruct (block_info gb block) as [info|]; simpl in H; [|done].
      simplify_eq; simpl. destruct (block_replaces block) as [r|] eqn:Hr.
      * rewrite elem_of_union, elem_of_singleton. split.
        -- intros [->|?]; [|by left]. right. right. exists block.
           split_and!; [by constructor|by eexists|done..].
        -- intros [?|[(b&->%list_elem_of_singleton&?&?)
                     |(b&->%list_elem_of_singleton&?&?&?)]];
             [by right|congruence|left; congruence].
      * split; [by left|].
        intros [?|[(b&->%list_elem_of_singleton&?&?)
                  |(b&->%list_elem_of_singleton&?&?&?)]];
          [done|congruence..].
  - simplify_eq. split; [by left|].
    intros [?|[(b&->%list_elem_of_singleton&?&?)
              |(b&->%list_elem_of_singleton&[? ?]&?&?)]];
      [done|congruence..].
Qed.

Lemma deprecated_cons b blocks g :
  deprecated (b :: blocks) g ↔ deprecated [b] g ∨ deprecated blocks g.
Proof.
  unfold deprecated, marked_deprecated, superseded. split.
  - intros [(x&[->|Hx]%elem_of_cons&?)|(x&[->|Hx]%elem_of_cons&?)].
    + left. left. exists b. split; [by constructor|done].
    + right. left. by exists x.
    + left. right. exists b. split; [by constructor|done].
    + right. right. by exists x.
  - intros [[(x&->%list_elem_of_singleton&?)|(x&->%list_elem_of_singleton&?)]
           |[(x&?&?)|(x&?&?)]].
    + left. exists b. split; [by constructor|done].
    + right. exists b. split; [by constructor|done].
    + left. exists x. split; [by constructor|done].
    + right. exists x. split; [by constructor|done].
Qed.

Lemma scan_blocks_ok blocks : ∀ st st',
  scan_blocks st blocks = Ok st' → Catalog.dict_ok st → Catalog.dict_ok st'.
Proof.
  induction blocks as [|b blocks IH]; simpl; intros st st' H Hok.
  - by simplify_eq.
  - destruct (process_block st b) as [st1|] eqn:Hb; simpl in H; [|done].
    eapply IH; [done|]. by eapply process_block_ok.
Qed.

Lemma scan_blocks_deprecated blocks : ∀ st st',
  scan_blocks st blocks = Ok st' →
  ∀ g, g ∈ deprecated_guids st' ↔
       g ∈ deprecated_guids st ∨ deprecated blocks g.
Proof.
  induction blocks as [|b blocks IH]; simpl; intros st st' H g.
  - simplify_eq. split; [by left|].
    intros [?|[(x&?%elem_of_nil&?)|(x&?%elem_of_nil&?)]]; done.
  - destruct (process_block st b) as [st1|] eqn:Hb; simpl in H; [|done].
    rewrite (IH _ _ H g), (process_block_deprecated _ _ _ Hb g),
      (deprecated_cons b blocks). clear. tauto.
Qed.

Lemma retained_spec st fmt :
  Catalog.dict_ok st →
  fmt ∈ retained st ↔
  (guid fmt, fmt) ∈ formats_by_guid st ∧ guid fmt ∉ deprecated_guids st.
Proof.
  intros [_ Hall]. unfold retained. rewrite list_elem_of_fmap. split.
  - intros ([k v]&->&[Hk Hin]%list_elem_of_filter). simpl in *.
    pose proof (proj1 (Forall_forall _ _) Hall _ Hin) as Hg. simpl in Hg.
    by rewrite Hg.
  - intros [Hin Hk]. exists (guid fmt, fmt). split; [done|].
    by apply list_elem_of_filter.
Qed.

Lemma retained_NoDup st : Catalog.dict_ok st → NoDup (guid <$> retained st).
Proof.
  intros [Hnd Hall]. unfold retained.
  assert (guid <$> (filter (λ kv, kv.1 ∉ deprecated_guids st)
                      (formats_by_guid st)).*2
          = (filter (λ kv, kv.1 ∉ deprecated_guids st)
               (formats_by_guid st)).*1) as ->.
  { rewrite <-list_fmap_compose. apply Forall_fmap_ext_1, Forall_forall.
    intros kv [_ Hin]%list_elem_of_filter.
    exact (proj1 (Forall_forall _ _) Hall _ Hin). }
  revert Hnd. generalize (formats_by_guid st). clear.
  induction l as [|[k v] l IH]; simpl; [constructor|].
  intros [Hk Hl]%NoDup_cons. rewrite filter_cons. simpl.
  case_decide; [|by apply IH]. simpl. apply NoDup_cons. split; [|by apply IH].
  intros Hin. apply Hk. apply list_elem_of_fmap in Hin as (kv&->&Hin).
  apply list_elem_of_filter in Hin as [_ Hin]. apply list_elem_of_fmap. eauto.
Qed.

Lemma empty_state_ok : Catalog.dict_ok empty_state.
Proof. split; simpl; constructor. Qed.

End parser.

(** C1, as the code has it.  For every catalog file the retained formats
    have pairwise distinct GUIDs and none of these GUIDs is in the
    deprecated set of the file, which holds the GUID of every block with a
    GUID and the deprecation marker, and the first [replaces] reference of
    every block with a GUID and without the marker.  So a block with the
    marker is never retained, and the target of such a first reference is
    never retained, marker or not. *)
Theorem retained_unique_and_not_deprecated (content : string) :
  let blocks := Re.format_blocks content in
  let formats := FormatsDefParser.parse_formats_file content in
  NoDup (FormatsDefParser.guid <$> formats)
  ∧ (∀ fmt, fmt ∈ formats → ¬ Catalog.deprecated blocks (FormatsDefParser.guid fmt))
  ∧ (∀ b g, b ∈ blocks → FormatsDefParser.block_guid b = Some g →
            FormatsDefParser.block_deprecated b = true →
            g ∉ FormatsDefParser.guid <$> formats)
  ∧ (∀ a ga gb, a ∈ blocks → FormatsDefParser.block_guid a = Some ga →
                FormatsDefParser.block_deprecated a = false →
                FormatsDefParser.block_replaces a = Some gb →
                gb ∉ FormatsDefParser.guid <$> formats).
Proof.
  intros blocks formats.
  assert (NoDup (FormatsDefParser.guid <$> formats)
          ∧ ∀ fmt, fmt ∈ formats →
                   ¬ Catalog.deprecated blocks (FormatsDefParser.guid fmt))
    as [Hnd Hdep].
  { subst formats. unfold FormatsDefParser.parse_formats_file,
      FormatsDefParser.parse_blocks. fold blocks.
    destruct (FormatsDefParser.scan_blocks FormatsDefParser.empty_state blocks)
      as [st|] eqn:Hscan.
    - pose proof (scan_blocks_ok _ _ _ Hscan empty_state_ok) as Hok.
      split; [by apply retained_NoDup|].
      intros fmt [_ Hout]%retained_spec Hd; [|done]. apply Hout.
      apply (scan_blocks_deprecated _ _ _ Hscan). by right.
    - split; [constructor|]. by intros fmt ?%elem_of_nil. }
  split_and!; [done..| |].
  - intros b g Hb Hg Hd (fmt&->&Hin)%list_elem_of_fmap.
    apply (Hdep _ Hin). left. by exists b.
  - intros a ga gb Ha Hg Hd Hr (fmt&->&Hin)%list_elem_of_fmap.
    apply (Hdep _ Hin). right. exists a. split_and!; [done|by eexists|done..].
Qed.

(** C1 as stated fails: a [replaces {B}] line does not remove [B] when it
    stands in a block with the deprecation marker, or behind another
    [replaces] line of its block, or in a block without a GUID. *)
Lemma replaces_line_can_leave_target_retained :
  Forall (λ content,
    (∃ a, a ∈ Re.format_blocks content ∧ Text.contains "replaces {B}" a = true)
    ∧ "B" ∈ FormatsDefParser.guid <$> FormatsDefParser.parse_formats_file content)
    [Samples.replaced_by_deprecated; Samples.replaces_twice;
     Samples.replaced_by_anonymous].
Proof.
  repeat apply Forall_cons_2; [..|apply Forall_nil_2].
  all: split;
    [eexists; split; [apply list_elem_of_here|by vm_compute]
    |vm_compute; repeat constructor].
Qed.

Section block_order.
Import FormatsDefParser Catalog.
Implicit Types (st : loop_state) (b block g : string) (blocks : list string).

Lemma process_block_entry st block :
  fails block = false →
  ∃ st', process_block st block = Ok st'
         ∧ formats_by_guid st'
           = foldl set_entry (formats_by_guid st) (option_list (entry block)).
Proof.
  unfold fails, entry, inserted_guid, process_block.
  destruct (block_guid block) as [g|]; simpl; [|by eauto].
  destruct (block_deprecated block); simpl; [by eauto|].
  destruct (block_info g block); simpl; [by eauto|done].
Qed.

Lemma process_block_fails st block :
  fails block = true → ∃ e, process_block st block = Raise e.
Proof.
  unfold fails, inserted_guid, process_block.
  destruct (block_guid block) as [g|]; simpl; [|done].
  destruct (block_deprecated block); simpl; [done|].
  destruct (block_info g block); simpl; [done|by eauto].
Qed.

Lemma scan_blocks_entries blocks : ∀ st,
  Forall (λ b, fails b = false) blocks →
  ∃ st', scan_blocks st blocks = Ok st'
         ∧ formats_by_guid st'
           = foldl set_entry (formats_by_guid st) (omap entry blocks).
Proof.
  induction blocks as [|b blocks IH]; simpl; intros st Hall; [by eauto|].
  apply Forall_cons in Hall as [Hb Hall].
  destruct (process_block_entry st b Hb) as (st1&->&Hd1). simpl.
  destruct (IH st1 Hall) as (st'&->&Hd). exists st'. split; [done|].
  rewrite Hd, Hd1. by destruct (entry b).
Qed.

Lemma scan_blocks_raises blocks : ∀ st,
  Exists (λ b, fails b = true) blocks → ∃ e, scan_blocks st blocks = Raise e.
Proof.
  induction blocks as [|b blocks IH]; simpl; intros st Hex; [by inv Hex|].
  destruct (fails b) eqn:Hb.
  - destruct (process_block_fails st b Hb) as [e ->]. by eauto.
  - destruct (process_block_entry st b Hb) as (st1&->&_). simpl.
    apply IH. by inv Hex; [congruence|].
Qed.

Lemma all_or_fails blocks :
  Forall (λ b, fails b = false) blocks ∨ Exists (λ b, fails b = true) blocks.
Proof.
  induction blocks as [|b blocks [IH|IH]].
  - by left.
  - destruct (fails b) eqn:Hb; [right; by left|left; by constructor].
  - right. by right.
Qed.

Lemma foldl_set_entry_keys (es : list (string * format_info)) : ∀ d k,
  k ∈ (foldl set_entry d es).*1 ↔ k ∈ d.*1 ∨ k ∈ es.*1.
Proof.
  induction es as [|[k' v] es IH]; simpl; intros d k.
  - rewrite elem_of_nil. tauto.
  - rewrite IH. change (set_entry d (k', v)) with (dict_set k' v d).
    rewrite dict_set_keys_elem, elem_of_cons. tauto.
Qed.

Lemma foldl_set_entry_fresh (es : list (string * format_info)) : ∀ d,
  NoDup (d.*1 ++ es.*1) → foldl set_entry d es = d ++ es.
Proof.
  induction es as [|[k v] es IH]; simpl; intros d Hnd.
  - by rewrite app_nil_r.
  - change (set_entry d (k, v)) with (dict_set k v d).
    assert (k ∉ d.*1) as Hk.
    { apply NoDup_app in Hnd as (_&Hdis&_). intros Hin.
      apply (Hdis _ Hin). by left. }
    rewrite dict_set_keys_fresh by done.
    rewrite IH; [by rewrite <-app_assoc|].
    rewrite fmap_app. simpl. by rewrite <-app_assoc.
Qed.

Lemma entries_keys blocks :
  Forall (λ b, fails b = false) blocks →
  (omap entry blocks).*1 = inserted_guids blocks.
Proof.
  unfold inserted_guids.
  induction 1 as [|b blocks Hb _ IH]; csimpl; [done|].
  assert (fst <$> entry b = inserted_guid b) as Hb'.
  { unfold entry, fails in *. destruct (inserted_guid b) as [g|]; [|done].
    simpl. by destruct (block_info g b). }
  rewrite <-Hb'. destruct (entry b) as [[k v]|]; csimpl; by rewrite IH.
Qed.

Lemma deprecated_perm blocks blocks' g :
  blocks ≡ₚ blocks' → deprecated blocks g ↔ deprecated blocks' g.
Proof.
  intros Hp. unfold deprecated, marked_deprecated, superseded.
  by setoid_rewrite Hp.
Qed.

(** What [parse_blocks] returns when no block makes the load fail. *)
Lemma parse_blocks_entries blocks :
  Forall (λ b, fails b = false) blocks →
  ∃ st, scan_blocks empty_state blocks = Ok st
        ∧ parse_blocks blocks = retained st
        ∧ Catalog.dict_ok st
        ∧ formats_by_guid st = foldl set_entry [] (omap entry blocks)
        ∧ ∀ g, g ∈ deprecated_guids st ↔ deprecated blocks g.
Proof.
  intros Hall. destruct (scan_blocks_entries blocks empty_state Hall)
    as (st&Hscan&Hd).
  exists st. unfold parse_blocks. rewrite Hscan. split_and!; [done..| | |].
  - by eapply scan_blocks_ok, empty_state_ok.
  - done.
  - intros g. rewrite (scan_blocks_deprecated _ _ _ Hscan g). simpl.
    rewrite elem_of_empty. tauto.
Qed.

Lemma parse_blocks_fails blocks :
  Exists (λ b, fails b = true) blocks → parse_blocks blocks = [].
Proof.
  intros Hex. unfold parse_blocks.
  by destruct (scan_blocks_raises blocks empty_state Hex) as [e ->].
Qed.

Lemma parse_blocks_guids blocks g :
  Forall (λ b, fails b = false) blocks →
  g ∈ guid <$> parse_blocks blocks ↔
  g ∈ inserted_guids blocks ∧ ¬ deprecated blocks g.
Proof.
  intros Hall.
  destruct (parse_blocks_entries blocks Hall) as (st&_&->&Hok&Hd&Hdep).
  rewrite <-(entries_keys blocks Hall), <-Hdep.
  assert (g ∈ (omap entry blocks).*1 ↔ g ∈ (formats_by_guid st).*1) as ->.
  { rewrite Hd, foldl_set_entry_keys. simpl. rewrite elem_of_nil. tauto. }
  rewrite !list_elem_of_fmap. split.
  - intros (fmt&->&[Hin Hout]%retained_spec); [|done]. split; [|done].
    by exists (guid fmt, fmt).
  - intros [([k v]&->&Hin) Hout]. simpl in *.
    pose proof (proj1 (Forall_forall _ _) (proj2 Hok) _ Hin) as Hg.
    simpl in Hg. subst k. exists v. split; [done|].
    by apply retained_spec.
Qed.

End block_order.

Lemma parse_blocks_permutation (bs bs' : list string) :
  bs ≡ₚ bs' →
  (∀ g, g ∈ FormatsDefParser.guid <$> FormatsDefParser.parse_blocks bs
        ↔ g ∈ FormatsDefParser.guid <$> FormatsDefParser.parse_blocks bs')
  ∧ (NoDup (Catalog.inserted_guids bs) →
     FormatsDefParser.parse_blocks bs ≡ₚ FormatsDefParser.parse_blocks bs').
Proof.
  intros Hp.
  destruct (all_or_fails bs) as [Hall|Hex].
  - assert (Forall (λ b, Catalog.fails b = false) bs') as Hall'
        by by rewrite <-Hp.
    split.
    + intros g. rewrite !parse_blocks_guids by done.
      unfold Catalog.inserted_guids.
      by rewrite (deprecated_perm _ _ g Hp), Hp.
    + intros Hnd.
      assert (NoDup (Catalog.inserted_guids bs')) as Hnd'
          by (unfold Catalog.inserted_guids in *; by rewrite <-Hp).
      destruct (parse_blocks_entries bs Hall) as (st&_&->&_&Hd&Hdep).
      destruct (parse_blocks_entries bs' Hall') as (st'&_&->&_&Hd'&Hdep').
      rewrite foldl_set_entry_fresh in Hd, Hd'
        by (simpl; by rewrite entries_keys).
      simpl in Hd, Hd'.
      assert (FormatsDefParser.deprecated_guids st
              = FormatsDefParser.deprecated_guids st') as Hset.
      { apply set_eq. intros g.
        by rewrite Hdep, Hdep', (deprecated_perm _ _ g Hp). }
      unfold FormatsDefParser.retained. rewrite Hd, Hd', Hset.
      by rewrite Hp.
  - rewrite (parse_blocks_fails bs Hex).
    rewrite (parse_blocks_fails bs') by by rewrite <-Hp.
    done.
Qed.

(** C8, as the code has it.  When the blocks of two files are the same up
    to their order, the two retained catalogs hold the same GUIDs; and when
    no two blocks that are written to the dictionary share a GUID, they hold
    the same formats with the same attributes. *)
Theorem retained_set_under_block_permutation (content content' : string) :
  Re.format_blocks content ≡ₚ Re.format_blocks content' →
  let formats := FormatsDefParser.parse_formats_file content in
  let formats' := FormatsDefParser.parse_formats_file content' in
  (∀ g, g ∈ FormatsDefParser.guid <$> formats
        ↔ g ∈ FormatsDefParser.guid <$> formats')
  ∧ (NoDup (Catalog.inserted_guids (Re.format_blocks content)) →
     formats ≡ₚ formats').
Proof.
  intros Hp. exact (parse_blocks_permutation _ _ Hp).
Qed.

Lemma retained_set_under_block_permutation_witness :
  Re.format_blocks Samples.catalog ≡ₚ Re.format_blocks Samples.catalog_reordered
  ∧ NoDup (Catalog.inserted_guids (Re.format_blocks Samples.catalog))
  ∧ FormatsDefParser.parse_formats_file Samples.catalog
    ≡ₚ FormatsDefParser.parse_formats_file Samples.catalog_reordered.
Proof.
  assert (Re.format_blocks Samples.catalog
          ≡ₚ Re.format_blocks Samples.catalog_reordered) as Hp.
  { vm_compute. apply (Permutation_rev [_; _; _; _]). }
  assert (NoDup (Catalog.inserted_guids (Re.format_blocks Samples.catalog)))
    as Hnd.
  { vm_compute. apply (bool_decide_unpack _). by vm_compute. }
  split_and!; [done..|].
  exact (proj2 (retained_set_under_block_permutation _ _ Hp) Hnd).
Defined.

(** C8 as stated fails: with two blocks of one GUID, the later block
    decides the attributes, so the two orders retain different formats. *)
Lemma block_order_changes_retained_format :
  Re.format_blocks Samples.same_guid_first
    ≡ₚ Re.format_blocks Samples.same_guid_second
  ∧ FormatsDefParser.name <$> FormatsDefParser.parse_formats_file Samples.same_guid_first
    = [Some "PI 400"]
  ∧ FormatsDefParser.name <$> FormatsDefParser.parse_formats_file Samples.same_guid_second
    = [Some "PI 640"]
  ∧ ¬ (∀ fmt, fmt ∈ FormatsDefParser.parse_formats_file Samples.same_guid_first
              ↔ fmt ∈ FormatsDefParser.parse_formats_file Samples.same_guid_second).
Proof.
  split_and!.
  - vm_compute. apply perm_swap.
  - by vm_compute.
  - by vm_compute.
  - intros H.
    assert (Some "PI 400" ∈ FormatsDefParser.name
              <$> FormatsDefParser.parse_formats_file Samples.same_guid_second)
      as Hin.
    { apply list_elem_of_fmap.
      assert (∃ fmt, fmt ∈ FormatsDefParser.parse_formats_file Samples.same_guid_first
                     ∧ FormatsDefParser.name fmt = Some "PI 400")
        as (fmt&Hf&Hn).
      { eexists. split; [vm_compute; apply list_elem_of_here|done]. }
      exists fmt. split; [done|]. by apply H. }
    vm_compute in Hin. apply list_elem_of_singleton in Hin. discriminate.
Qed.

(** * Lookup by resolution *)

Section lookup.
Import FormatsDefParser Catalog.

Lemma get_formats_by_resolution_filter formats w h :
  get_formats_by_resolution formats w h = filter (has_resolution w h) formats.
Proof.
  unfold get_formats_by_resolution.
  enough (∀ acc, foldl (λ matching_formats fmt,
                   if decide (width fmt = Some w ∧ height fmt = Some h)
                   then matching_formats ++ [fmt] else matching_formats)
                   acc formats
                 = acc ++ filter (has_resolution w h) formats) as H
      by apply (H []).
  induction formats as [|fmt formats IH]; intros acc; simpl.
  - by rewrite app_nil_r.
  - rewrite IH, filter_cons.
    destruct (decide (width fmt = Some w ∧ height fmt = Some h)) as [Hd|Hd];
      destruct (decide (has_resolution w h fmt)) as [Hr|Hr]; try done.
    by rewrite <-app_assoc.
Qed.


End lookup.




(** * Grouping by model *)

Section grouping.
Import FormatsDefParser Catalog.
Implicit Types (models : list (string * list format_info))
               (formats : list format_info) (fmt : format_info) (k : string).

Lemma dict_get_set {V} k k' (v : V) d :
  dict_get k' (dict_set k v d) = if decide (k = k') then Some v else dict_get k' d.
Proof.
  induction d as [|[k0 v0] d IH]; simpl.
  - by repeat case_decide.
  - repeat (case_decide; simplify_eq/=); try done.
    all: rewrite ?IH; by repeat (case_decide; simplify_eq/=).
Qed.

Lemma dict_get_elem {V} k (v : V) d :
  NoDup d.*1 → (k, v) ∈ d ↔ dict_get k d = Some v.
Proof.
  induction d as [|[k0 v0] d IH]; simpl.
  - intros _. rewrite elem_of_nil. naive_solver.
  - intros [Hk Hd]%NoDup_cons. rewrite elem_of_cons, (IH Hd).
    case_decide; simplify_eq/=; [|naive_solver].
    split; [|naive_solver]. intros [?|Hget]; [naive_solver|].
    apply IH in Hget; [|done]. destruct Hk. apply list_elem_of_fmap.
    by exists (k, v).
Qed.

Lemma group_step_ok models formats fmt :
  is_Some (name fmt) → Catalog.groups_ok models formats →
  ∃ models', group_step models fmt = Ok models'
             ∧ Catalog.groups_ok models' (formats ++ [fmt]).
Proof.
  intros [n Hn] [Hnd Hget]. unfold group_step. rewrite Hn.
  assert (model_of fmt = head (Text.split n)) as Hm
      by (unfold model_of; by rewrite Hn).
  destruct (Text.split n) as [|m parts]; simpl in Hm.
  - exists models. split; [done|]. split; [done|]. intros k.
    rewrite Hget. unfold Catalog.group_of. rewrite filter_app, filter_cons.
    rewrite decide_False by congruence. by rewrite filter_nil, app_nil_r.
  - eexists. split; [done|]. split; [by apply dict_set_NoDup|]. intros k.
    rewrite dict_get_set. unfold Catalog.group_of.
    rewrite filter_app, filter_cons, filter_nil.
    case_decide as Hk; simplify_eq.
    + rewrite decide_True by done. rewrite Hget. unfold Catalog.group_of.
      by destruct (filter _ formats).
    + rewrite decide_False by congruence. rewrite app_nil_r. apply Hget.
Qed.

Lemma group_loop_ok rest : ∀ models formats,
  Forall (λ fmt, is_Some (name fmt)) rest → Catalog.groups_ok models formats →
  ∃ models', group_loop models rest = Ok models'
             ∧ Catalog.groups_ok models' (formats ++ rest).
Proof.
  induction rest as [|fmt rest IH]; simpl; intros models formats Hall Hok.
  - exists models. by rewrite app_nil_r.
  - apply Forall_cons in Hall as [Hfmt Hall].
    destruct (group_step_ok models formats fmt Hfmt Hok) as (m1&->&Hok1).
    simpl. destruct (IH m1 (formats ++ [fmt]) Hall Hok1) as (m2&->&Hok2).
    exists m2. by rewrite <-app_assoc in Hok2.
Qed.

End grouping.

(** C9, as the code has it.  When every format of the catalog has a name,
    the grouping returns a dictionary with distinct keys in which a key [k]
    holds the list [l] exactly when [l] is not empty and is the list of the
    formats whose name has [k] as its first token.  So a format whose name
    has a token is in the group of that token and in no other, and a format
    whose name has no token is in no group. *)
Theorem grouped_by_first_token (formats : list FormatsDefParser.format_info) :
  Forall (λ fmt, is_Some (FormatsDefParser.name fmt)) formats →
  ∃ models,
    FormatsDefParser.get_formats_grouped_by_model formats = Ok models
    ∧ NoDup models.*1
    ∧ (∀ k l, (k, l) ∈ models ↔
              l ≠ [] ∧ l = filter (λ fmt, Catalog.model_of fmt = Some k) formats)
    ∧ (∀ fmt k l, (k, l) ∈ models →
                  fmt ∈ l ↔ fmt ∈ formats ∧ Catalog.model_of fmt = Some k)
    ∧ (∀ fmt k, fmt ∈ formats → Catalog.model_of fmt = Some k →
                ∃ l, (k, l) ∈ models ∧ fmt ∈ l).
Proof.
  intros Hall.
  destruct (group_loop_ok formats [] [] Hall) as (models&Hrun&Hnd&Hget).
  { split; [constructor|]. intros k. done. }
  simpl in Hget. exists models. split; [done|]. split; [done|].
  assert (∀ k l, (k, l) ∈ models ↔
            l ≠ [] ∧ l = filter (λ fmt, Catalog.model_of fmt = Some k) formats)
    as Hchar.
  { intros k l. rewrite dict_get_elem, Hget by done. unfold Catalog.group_of.
    destruct (filter _ formats) as [|x xs]; [naive_solver|].
    split; [by intros [= <-]|by intros [_ ->]]. }
  split; [done|]. split.
  - intros fmt k l [_ ->]%Hchar. rewrite list_elem_of_filter. tauto.
  - intros fmt k Hin Hm. eexists. split.
    + apply Hchar. split; [|done]. intros Hnil.
      assert (fmt ∈ filter (λ fmt, Catalog.model_of fmt = Some k) formats) as H
          by by apply list_elem_of_filter.
      rewrite Hnil in H. by apply elem_of_nil in H.
    + by apply list_elem_of_filter.
Qed.

Lemma grouped_by_first_token_witness :
  ∃ models,
    FormatsDefParser.get_formats_grouped_by_model
      (FormatsDefParser.parse_formats_file Samples.catalog) = Ok models
    ∧ models.*1 = ["PI"; "Xi"].
Proof.
  destruct (grouped_by_first_token
              (FormatsDefParser.parse_formats_file Samples.catalog))
    as (models&Hrun&_).
  - vm_compute. repeat constructor; by eexists.
  - exists models. split; [exact Hrun|].
    vm_compute in Hrun. by injection Hrun as <-.
Defined.

(** C9 as stated fails: a retained format whose name holds no token is put
    in no group. *)
Lemma blank_name_is_in_no_group :
  FormatsDefParser.name
    <$> FormatsDefParser.parse_formats_file Samples.blank_name = [Some " "]
  ∧ FormatsDefParser.get_formats_grouped_by_model
      (FormatsDefParser.parse_formats_file Samples.blank_name) = Ok [].
Proof. by vm_compute. Qed.

(** A retained format without the key [name] makes the grouping raise. *)
Lemma missing_name_raises :
  FormatsDefParser.name
    <$> FormatsDefParser.parse_formats_file Samples.no_name = [None]
  ∧ FormatsDefParser.get_formats_grouped_by_model
      (FormatsDefParser.parse_formats_file Samples.no_name)
    = Raise (KeyError "name").
Proof. by vm_compute. Qed.

(** * The session *)

Section session.
Import ThermalCameraApp.


Lemma ticks_cons f now l a r a1 t1 :
  timer a = true → update_frame f now a = (r, a1, t1) →
  ticks ((f, now) :: l) a
  = match r with
    | Ok _ => let '(r', a', t) := ticks l a1 in (r', a', t1 ++ t)
    | Raise e => (Raise e, a1, t1)
    end.
Proof.
  intros Ht Hrun. cbn [ticks].
  unfold mbind, eff_bind, bind, get. rewrite Ht. cbn [when app].
  rewrite Hrun. destruct r as [[]|e]; [|done].
  by destruct (ticks l a1) as [[r' a'] t].
Qed.

End session.



(** C7.  On a tick where the library returns a non-zero status,
    [update_frame] returns normally, makes the one library call and prints
    the one error line, shows and writes nothing, and leaves every attribute
    as it was apart from the three buffers the library was handed; the timer
    stays active, so the ticks behind it run as they would have. *)
Theorem failed_acquisition_skips_the_tick
    (a : ThermalCameraApp.t) (f : Sdk.frame) (now : Q) :
  Sdk.status f ≠ 0 →
  let a' := ThermalCameraApp.set_buffers
              (Np.written 16 (Sdk.thermal_px f) (ThermalCameraApp.np_thermal a))
              (Np.written 8 (Sdk.palette_px f) (ThermalCameraApp.np_img a))
              (Sdk.meta f) a in
  let trace :=
    [Call (Sdk.evo_irimager_get_thermal_palette_image_metadata
             (ThermalCameraApp.thermal_width a) (ThermalCameraApp.thermal_height a)
             (ThermalCameraApp.palette_width a) (ThermalCameraApp.palette_height a));
     Print (MsgFrameError (Sdk.status f))] in
  ThermalCameraApp.update_frame f now a = (Ok tt, a', trace)
  ∧ (ThermalCameraApp.camera_manager a' = ThermalCameraApp.camera_manager a
     ∧ ThermalCameraApp.thermal_width a' = ThermalCameraApp.thermal_width a
     ∧ ThermalCameraApp.thermal_height a' = ThermalCameraApp.thermal_height a
     ∧ ThermalCameraApp.palette_width a' = ThermalCameraApp.palette_width a
     ∧ ThermalCameraApp.palette_height a' = ThermalCameraApp.palette_height a
     ∧ ThermalCameraApp.frame_count a' = ThermalCameraApp.frame_count a
     ∧ ThermalCameraApp.fps a' = ThermalCameraApp.fps a
     ∧ ThermalCameraApp.last_update_time a' = ThermalCameraApp.last_update_time a
     ∧ ThermalCameraApp.palette_combo a' = ThermalCameraApp.palette_combo a
     ∧ ThermalCameraApp.auto_calib_checkbox a' = ThermalCameraApp.auto_calib_checkbox a
     ∧ ThermalCameraApp.recording a' = ThermalCameraApp.recording a
     ∧ ThermalCameraApp.video_writer a' = ThermalCameraApp.video_writer a
     ∧ ThermalCameraApp.timer a' = ThermalCameraApp.timer a)
  ∧ (∀ l, ThermalCameraApp.timer a = true →
          ThermalCameraApp.ticks ((f, now) :: l) a
          = let '(r, a'', t) := ThermalCameraApp.ticks l a' in
            (r, a'', trace ++ t)).
Proof.
  intros Hf a' trace.
  assert (ThermalCameraApp.update_frame f now a = (Ok tt, a', trace)) as Hrun.
  { unfold ThermalCameraApp.update_frame, ThermalCameraApp.update_frame_body.
    run_eff. by rewrite decide_True. }
  split; [done|]. split; [by repeat split|].
  intros l Ht. by rewrite (ticks_cons _ _ _ _ _ _ _ Ht Hrun).
Qed.

Lemma failed_acquisition_skips_the_tick_witness :
  ThermalCameraApp.update_frame Samples.failed_frame 1 Samples.small_app
  = (Ok tt, Samples.small_app,
     [Call (Sdk.evo_irimager_get_thermal_palette_image_metadata 4 2 4 2);
      Print (MsgFrameError (-1))]).
Proof.
  refine (eq_trans
            (proj1 (failed_acquisition_skips_the_tick
                      Samples.small_app Samples.failed_frame 1 _)) _).
  - vm_compute. discriminate.
  - vm_compute. reflexivity.
Defined.

(** * Frame-rate accounting *)

Section fps.
Import ThermalCameraApp.

Lemma Qgtb_lt x y : Qgtb x y = true ↔ (y < x)%Q.
Proof.
  unfold Qgtb. rewrite negb_true_iff, <-not_true_iff_false, Qle_bool_iff.
  split; [apply Qnot_le_lt|apply Qlt_not_le].
Qed.

Lemma Qgtb_le x y : Qgtb x y = false ↔ (x <= y)%Q.
Proof. unfold Qgtb. by rewrite negb_false_iff, Qle_bool_iff. Qed.

Ltac not_in_trace :=
  let H := fresh in
  intros ? H; unfold Session.shows_fps in H;
  repeat (apply elem_of_cons in H as [H|H]; [discriminate H|]);
  by apply elem_of_nil in H.

Lemma length_written bits px l : length (Np.written bits px l) = length l.
Proof. unfold Np.written. by rewrite length_fmap, length_seq. Qed.

Lemma update_frame_fps (a : t) (f : Sdk.frame) (now : Q) :
  let elapsed := (now - last_update_time a)%Q in
  let rate := (inject_Z (frame_count a + 1) / elapsed)%Q in
  ∃ a' tr,
    update_frame f now a = (Ok tt, a', tr)
    ∧ ((¬ Session.counted a f ∧ frame_count a' = frame_count a ∧ fps a' = fps a
        ∧ last_update_time a' = last_update_time a ∧ ∀ x, ¬ Session.shows_fps tr x)
       ∨ (Session.counted a f ∧ (elapsed <= 1 # 2)%Q
          ∧ frame_count a' = frame_count a + 1 ∧ fps a' = fps a
          ∧ last_update_time a' = last_update_time a ∧ ∀ x, ¬ Session.shows_fps tr x)
       ∨ (Session.counted a f ∧ (1 # 2 < elapsed)%Q
          ∧ frame_count a' = 0 ∧ fps a' = rate
          ∧ last_update_time a' = now ∧ ∀ x, Session.shows_fps tr x ↔ x = rate)).
Proof.
  intros elapsed rate.
  unfold update_frame, update_frame_body. run_eff.
  destruct (decide (Sdk.status f ≠ 0)) as [Hs|Hs].
  { eexists _, _. split; [reflexivity|]. simpl. left. split_and!; try done.
    - by intros [? _].
    - not_in_trace. }
  apply dec_stable in Hs. simpl.
  unfold Np.reshape_reversed. rewrite !length_written.
  case_decide as Hshape; simpl; cycle 1.
  { eexists _, _. split; [reflexivity|]. simpl. left. split_and!; try done.
    - intros (?&?&?&?). by apply Hshape.
    - not_in_trace. }
  assert (Session.counted a f) as Hc by (by split).
  destruct (recording a && video_writer a); simpl;
    (destruct (Qgtb (now - last_update_time a) (1 # 2)) eqn:Hgt;
     [apply Qgtb_lt in Hgt|apply Qgtb_le in Hgt]); simpl;
    match goal with |- context [Np.getitem ?b ?i] => destruct (Np.getitem b i) end;
    simpl; eexists _, _; (split; [reflexivity|]); simpl.
  1,2,5,6: right; right; (split_and!; try done); intros x; unfold Session.shows_fps;
    rewrite !elem_of_cons, elem_of_nil; (split; [|intros ->; tauto]);
    intros H; repeat (destruct H as [H|H]; try discriminate H; try done);
    by injection H.
  all: right; left; (split_and!; try done); not_in_trace.
Qed.




End fps.



(** * The centre sample *)

Section centre.
Import ThermalCameraApp.

Lemma getitem_in_range (l : list Z) (i : Z) :
  0 ≤ i < Z.of_nat (length l) →
  ∃ x, l !! Z.to_nat i = Some x ∧ Np.getitem l i = Ok x.
Proof.
  intros Hi. unfold Np.getitem.
  destruct (decide (i < 0)) as [?|_]; [lia|].
  rewrite decide_True by done.
  destruct (lookup_lt_is_Some_2 l (Z.to_nat i)) as [x Hx]; [lia|].
  exists x. by rewrite Hx.
Qed.

Lemma center_index_in_range w h :
  0 < w → 0 < h → 0 ≤ h / 2 * w + w / 2 < w * h.
Proof.
  intros Hw Hh.
  assert (0 ≤ h / 2) by (apply Z.div_pos; lia).
  assert (0 ≤ w / 2) by (apply Z.div_pos; lia).
  assert (h / 2 + 1 ≤ h) by (pose proof (Z.div_lt h 2); lia).
  assert (w / 2 < w) by (apply Z.div_lt; lia).
  assert (h / 2 * w ≤ (h - 1) * w)
    by (apply Z.mul_le_mono_nonneg_r; lia).
  assert (0 ≤ h / 2 * w) by (apply Z.mul_nonneg_nonneg; lia).
  lia.
Qed.

Lemma update_frame_center (a : t) (f : Sdk.frame) (now : Q) raw :
  Session.counted a f →
  Np.getitem (Np.written 16 (Sdk.thermal_px f) (np_thermal a)) (center_index a)
  = Ok raw →
  ∃ a' tr, update_frame f now a = (Ok tt, a', tr)
           ∧ ∀ x, Session.shows_temp tr x ↔ x = raw.
Proof.
  intros (Hs&Hshape) Hget.
  unfold update_frame, update_frame_body. run_eff.
  rewrite decide_False by (by intros ?). simpl.
  unfold Np.reshape_reversed. rewrite !length_written.
  rewrite decide_True by done. simpl.
  destruct (recording a && video_writer a); simpl;
    destruct (Qgtb (now - last_update_time a) (1 # 2)); simpl;
    change (center_index (set_fps_state _ _ _ _)) with (center_index a);
    rewrite Hget; simpl; eexists _, _; (split; [reflexivity|]);
    intros x; unfold Session.shows_temp; rewrite !elem_of_cons, elem_of_nil;
    (split; [|intros ->; tauto]);
    intros H; repeat (destruct H as [H|H]; try discriminate H; try done);
    by injection H.
Qed.

End centre.

(** The conversion of one raw sample in binary64: it has a value for each
    of the 65536 sample values, 0 at 1000 and -100 at 0. *)
Lemma celsius_in_range_from_spec (n : nat) : ∀ start raw,
  Session.celsius_in_range_from start n = true →
  start ≤ raw < start + Z.of_nat n → Session.celsius_in_range raw = true.
Proof.
  induction n as [|n IH]; intros start raw; simpl; [lia|].
  intros [H0 Hn]%andb_true_iff Hraw.
  destruct (decide (raw = start)) as [->|Hne]; [done|].
  apply (IH (start + 1)); [done|lia].
Qed.

Lemma celsius_in_range_16_bit :
  Session.celsius_in_range_from 0 (Z.to_nat 65536) = true.
Proof. vm_compute. reflexivity. Qed.

Lemma celsius_of_every_sample (raw : Z) :
  0 ≤ raw < 65536 → Session.celsius_in_range raw = true.
Proof.
  intros Hraw.
  refine (celsius_in_range_from_spec (Z.to_nat 65536) 0 raw
            celsius_in_range_16_bit _).
  rewrite Z2Nat.id by lia. lia.
Qed.

Lemma celsius_fixed_points :
  ThermalCameraApp.celsius 1000 = 0%float
  ∧ ThermalCameraApp.celsius 0 = (-100)%float.
Proof. split; vm_compute; reflexivity. Qed.

(** C3.  For a thermal frame of positive width [w] and height [h] held in a
    buffer of [w * h] samples, the centre index is [(h / 2) * w + w / 2]
    with both divisions truncated, it lies inside the buffer, and on every
    tick that gets a frame the centre label shows the sample the library
    wrote at that index and no other.  For 640x480 the index is 153920; for
    641x481 it is 240 * 641 + 320. *)
Theorem center_sample_index (a : ThermalCameraApp.t) :
  let w := ThermalCameraApp.thermal_width a in
  let h := ThermalCameraApp.thermal_height a in
  0 < w → 0 < h →
  Z.of_nat (length (ThermalCameraApp.np_thermal a)) = w * h →
  ThermalCameraApp.center_index a = Z.quot h 2 * w + Z.quot w 2
  ∧ 0 ≤ ThermalCameraApp.center_index a < w * h
  ∧ (∃ raw, ThermalCameraApp.np_thermal a
              !! Z.to_nat (ThermalCameraApp.center_index a) = Some raw
            ∧ Np.getitem (ThermalCameraApp.np_thermal a)
                (ThermalCameraApp.center_index a) = Ok raw)
  ∧ (∀ f now, Session.counted a f →
       ∃ raw a' tr,
         Np.written 16 (Sdk.thermal_px f) (ThermalCameraApp.np_thermal a)
           !! Z.to_nat (ThermalCameraApp.center_index a) = Some raw
         ∧ ThermalCameraApp.update_frame f now a = (Ok tt, a', tr)
         ∧ ∀ x, Session.shows_temp tr x ↔ x = raw)
  ∧ (w = 640 → h = 480 → ThermalCameraApp.center_index a = 153920)
  ∧ (w = 641 → h = 481 → ThermalCameraApp.center_index a = 240 * 641 + 320).
Proof.
  intros w h Hw Hh Hlen.
  assert (ThermalCameraApp.center_index a = h / 2 * w + w / 2) as Hidx by done.
  pose proof (center_index_in_range w h Hw Hh) as Hrange.
  split_and!.
  - rewrite Hidx, !Z.quot_div_nonneg by lia. done.
  - rewrite Hidx. lia.
  - rewrite Hidx. lia.
  - apply getitem_in_range. rewrite Hidx, Hlen. lia.
  - intros f now Hc.
    destruct (getitem_in_range
                (Np.written 16 (Sdk.thermal_px f) (ThermalCameraApp.np_thermal a))
                (ThermalCameraApp.center_index a)) as (raw&Hraw&Hget).
    { rewrite length_written, Hidx, Hlen. lia. }
    destruct (update_frame_center a f now raw Hc Hget) as (a'&tr&Hrun&Hshow).
    by exists raw, a', tr.
  - intros Hw' Hh'. rewrite Hidx, Hw', Hh'. reflexivity.
  - intros Hw' Hh'. rewrite Hidx, Hw', Hh'. reflexivity.
Qed.

Lemma center_sample_index_witness :
  ThermalCameraApp.center_index Samples.small_app = 6
  ∧ 0 ≤ ThermalCameraApp.center_index Samples.small_app < 4 * 2.
Proof.
  destruct (center_sample_index Samples.small_app) as (Hidx&Hrange&_).
  - vm_compute. reflexivity.
  - vm_compute. reflexivity.
  - vm_compute. reflexivity.
  - split; [|exact Hrange]. rewrite Hidx. vm_compute. reflexivity.
Defined.

(** * Opening the session *)

Section opening.
Import ThermalCameraApp.

Lemma camera_manager_init_camera_opened dev xml cm ci cm' tr :
  CameraManager.init_camera dev xml cm = (Ok (Some ci), cm', tr) →
  Sdk.usb_init_status dev = 0
  ∧ CameraManager.libir cm' = true
  ∧ Call (Sdk.evo_irimager_usb_init xml) ∈ tr.
Proof.
  unfold CameraManager.init_camera, CameraManager.init_library. run_eff.
  destruct (CameraManager.libir cm) eqn:Hlib; simpl;
    [|destruct (Sdk.dll_loads dev); simpl; [|by intros [=]]].
  all: destruct (decide (Sdk.usb_init_status dev ≠ 0)) as [Hs|Hs%dec_stable];
    simpl; [by intros [=]|].
  all: destruct (Sdk.thermal_image_size dev) as [tw th],
         (Sdk.palette_image_size dev) as [pw ph]; simpl.
  all: match goal with
       | |- context [FormatsDefParser.get_formats_by_resolution ?l ?w ?h] =>
           destruct (FormatsDefParser.get_formats_by_resolution l w h)
       end; simpl; intros [= <- <- <-]; split_and!; try done;
    apply list_elem_of_here.
Qed.

Lemma camera_manager_init_camera_shutter_free status dev xml cm :
  CameraManager.init_camera (Session.with_shutter_mode_status status dev) xml cm
  = CameraManager.init_camera dev xml cm.
Proof. reflexivity. Qed.

Lemma set_palette_shutter_free status dev n a :
  set_palette (Session.with_shutter_mode_status status dev) n a = set_palette dev n a.
Proof. reflexivity. Qed.

End opening.

Lemma init_camera_status_irrelevant answer dev xml_path a :
  (ThermalCameraApp.init_camera (Session.with_shutter_mode_status answer dev) xml_path a).1
  = (ThermalCameraApp.init_camera dev xml_path a).1.
Proof.
  unfold ThermalCameraApp.init_camera. run_eff.
  rewrite !camera_manager_init_camera_shutter_free.
  destruct (CameraManager.init_camera dev xml_path (ThermalCameraApp.camera_manager a))
    as [[[[ci|]|e] cm'] t0] eqn:Hcm; simpl; [|done..].
  do 4 (next_stage; [|done]).
  rewrite set_palette_shutter_free. next_stage; [|done].
  by destruct (bool_decide (answer 1 ≠ 0)),
       (bool_decide (Sdk.set_shutter_mode_status dev 1 ≠ 0)).
Qed.

(** C10.  When [init_camera] of the window returns [True], the camera was
    opened by [evo_irimager_usb_init] and the last call to the library is
    [evo_irimager_set_shutter_mode] with the automatic mode, 1; what follows
    it is at most the line that reports its non-zero status.  Whatever
    status that call returns, [init_camera] returns [True] with the same
    attributes. *)
Theorem open_selects_auto_shutter_mode
    (dev : Sdk.device) (xml_path : string) (a a' : ThermalCameraApp.t)
    (tr : list event) :
  ThermalCameraApp.init_camera dev xml_path a = (Ok true, a', tr) →
  let status := Sdk.set_shutter_mode_status dev 1 in
  (∃ tr0,
     tr = tr0
          ++ Call (Sdk.evo_irimager_set_shutter_mode ThermalCameraApp.SHUTTER_MODE_AUTO)
          :: (if bool_decide (status ≠ 0)
              then [Print (MsgShutterInitError status)] else [])
     ∧ Call (Sdk.evo_irimager_usb_init xml_path) ∈ tr0)
  ∧ (∀ answer, ∃ tr',
       ThermalCameraApp.init_camera (Session.with_shutter_mode_status answer dev) xml_path a
       = (Ok true, a', tr')).
Proof.
  intros Hrun status. split.
  - revert Hrun. unfold ThermalCameraApp.init_camera. run_eff.
    destruct (CameraManager.init_camera dev xml_path (ThermalCameraApp.camera_manager a))
      as [[[[ci|]|e] cm'] t0] eqn:Hcm; simpl; [|by intros [=]..].
    apply camera_manager_init_camera_opened in Hcm as (_&_&Hcall).
    do 5 (next_stage; [|by intros [=]]).
    fold status. destruct (bool_decide (status ≠ 0)); simpl;
      intros [= <- <-];
      match goal with
      | |- ∃ tr0, ?t ++ ?inner = tr0 ++ ?sfx ∧ _ =>
          assert (sfx `suffix_of` inner) as [k ->]
            by (repeat first [reflexivity|apply suffix_app_r|apply suffix_cons_r])
      end;
      (exists (t0 ++ k); split; [by rewrite app_assoc|]);
      apply elem_of_app; by left.
  - intros answer.
    pose proof (init_camera_status_irrelevant answer dev xml_path a) as Heq.
    rewrite Hrun in Heq.
    destruct (ThermalCameraApp.init_camera
                (Session.with_shutter_mode_status answer dev) xml_path a) as [[r s] tr'].
    simpl in Heq. injection Heq as -> ->. by exists tr'.
Qed.

Lemma open_selects_auto_shutter_mode_witness :
  ∃ a' tr0,
    ThermalCameraApp.init_camera Samples.camera_refusing_shutter_mode "generic.xml"
      (ThermalCameraApp.new (Some Samples.catalog) 0)
    = (Ok true, a',
       tr0 ++ [Call (Sdk.evo_irimager_set_shutter_mode 1);
               Print (MsgShutterInitError (-1))]).
Proof.
  destruct (ThermalCameraApp.init_camera Samples.camera_refusing_shutter_mode
              "generic.xml" (ThermalCameraApp.new (Some Samples.catalog) 0))
    as [[r a'] tr] eqn:Hrun.
  assert (r = Ok true) as -> by (vm_compute in Hrun; by injection Hrun as <- _ _).
  destruct (proj1 (open_selects_auto_shutter_mode _ _ _ _ _ Hrun)) as (tr0&->&_).
  by exists a', tr0.
Defined.


(** * Further properties of the text scan *)

Section scan.

Lemma strip_prefix_app ci (p s x t : string) :
  Text.strip_prefix ci p s = Some x →
  Text.strip_prefix ci p (s +:+ t) = Some (x +:+ t).
Proof.
  revert s. induction p as [|a p IH]; intros [|b s]; simpl; try done.
  - by intros [= <-].
  - by intros [= <-].
  - case_match; [|done]. apply IH.
Qed.

Lemma strip_prefix_decompose (p s x : string) :
  Text.strip_prefix false p s = Some x → s = p +:+ x.
Proof.
  revert s. induction p as [|a p IH]; intros [|b s]; simpl; try done.
  - by intros [= <-].
  - by intros [= <-].
  - destruct (Ascii.eqb a b) eqn:Hab; [|done].
    apply Ascii.eqb_eq in Hab as ->. intros Hs. by rewrite (IH _ Hs).
Qed.

Lemma find_sub_decompose (p s before rest : string) :
  Text.find_sub p s = Some (before, rest) → s = before +:+ p +:+ rest.
Proof.
  revert before. induction s as [|c s IH]; intros before; simpl.
  - destruct (Text.strip_prefix false p "") as [r|] eqn:Hp; [|done].
    intros [= <- <-]. by apply strip_prefix_decompose in Hp.
  - destruct (Text.strip_prefix false p (String c s)) as [r|] eqn:Hp.
    + intros [= <- <-]. by apply strip_prefix_decompose in Hp.
    + destruct (Text.find_sub p s) as [[b r]|]; [|done].
      intros [= <- <-]. simpl. by rewrite (IH b eq_refl).
Qed.

Lemma find_sub_leftmost (p s before rest : string) :
  p ≠ EmptyString →
  Text.find_sub p s = Some (before, rest) → Text.find_sub p before = None.
Proof.
  intros Hp. revert before. induction s as [|c s IH]; intros before; simpl.
  - destruct (Text.strip_prefix false p "") as [r|] eqn:Hs; [|done].
    intros [= <- <-]. simpl. by rewrite Hs in *; destruct p.
  - destruct (Text.strip_prefix false p (String c s)) as [r|] eqn:Hs.
    + intros [= <- <-]. by destruct p.
    + destruct (Text.find_sub p s) as [[b r]|] eqn:Hf; [|done].
      intros [= <- <-]. simpl.
      destruct (Text.strip_prefix false p (String c b)) as [x|] eqn:Hb.
      * apply (strip_prefix_app _ _ _ _ (p +:+ r)) in Hb.
        apply find_sub_decompose in Hf.
        change (String c b +:+ (p +:+ r)) with (String c (b +:+ p +:+ r)) in Hb.
        rewrite <-Hf in Hb. congruence.
      * by rewrite (IH b eq_refl).
Qed.

Lemma findall_blocks_closed fuel : ∀ content,
  Forall (λ b, Text.contains "[Format end]" b = false)
    (Re.findall_blocks fuel content).
Proof.
  induction fuel as [|fuel IH]; intros content; simpl; [constructor|].
  destruct (Text.find_sub "[Format]" content) as [[b1 opened]|]; [|constructor].
  destruct (Text.find_sub "[Format end]" opened) as [[block rest]|] eqn:H2;
    [|constructor].
  constructor; [|apply IH]. unfold Text.contains.
  assert ("[Format end]" ≠ EmptyString) as Hne by discriminate.
  by rewrite (find_sub_leftmost _ _ _ _ Hne H2).
Qed.

Lemma findall_blocks_length fuel : ∀ content,
  (20 * length (Re.findall_blocks fuel content) ≤ String.length content)%nat.
Proof.
  induction fuel as [|fuel IH]; intros content; simpl; [lia|].
  destruct (Text.find_sub "[Format]" content) as [[b1 opened]|] eqn:H1;
    [|simpl; lia].
  destruct (Text.find_sub "[Format end]" opened) as [[block rest]|] eqn:H2;
    [|simpl; lia].
  apply find_sub_length in H1, H2. simpl in H1, H2.
  pose proof (IH rest). simpl. lia.
Qed.

End scan.

(** X1.  The blocks the scan cuts out of a file never contain the closing
    tag, and each of them accounts for at least the twenty characters of its
    two tags. *)
Theorem format_blocks_are_delimited (content : string) :
  Forall (λ b, Text.contains "[Format end]" b = false) (Re.format_blocks content)
  ∧ (20 * length (Re.format_blocks content) ≤ String.length content)%nat.
Proof.
  unfold Re.format_blocks. split.
  - apply findall_blocks_closed.
  - apply findall_blocks_length.
Qed.


(** * What the regular expressions capture *)

Section captures.
Import FormatsDefParser.

Lemma all_chars_app cls (s t : string) :
  Wf.all_chars cls (s +:+ t) = Wf.all_chars cls s && Wf.all_chars cls t.
Proof.
  induction s as [|c s IH]; [done|].
  change (String c s +:+ t) with (String c (s +:+ t)). simpl.
  by rewrite IH, andb_assoc.
Qed.

Lemma span_spec cls (s m r : string) :
  Text.span cls s = (m, r) →
  Wf.all_chars cls m = true ∧ s = m +:+ r
  ∧ (r = EmptyString ∨ ∃ c r', r = String c r' ∧ cls c = false).
Proof.
  revert m r. induction s as [|c s IH]; intros m r; simpl.
  - intros [= <- <-]. by split_and!; [..|left].
  - destruct (cls c) eqn:Hc.
    + destruct (Text.span cls s) as [m' r'] eqn:Hs. intros [= <- <-].
      destruct (IH _ _ eq_refl) as (Hall&->&Hr). simpl. rewrite Hc.
      by split_and!.
    + intros [= <- <-]. split_and!; [done..|]. right. by exists c, s.
Qed.

Lemma match_here_captured pat : ∀ s caps,
  Re.match_here pat s = Some caps →
  Forall2 Wf.captured (Wf.group_classes pat) caps.
Proof.
  induction pat as [|[l|l|cls|cls|cls] pat IH]; intros s caps; simpl.
  - intros [= <-]. constructor.
  - destruct (Text.strip_prefix false l s); [apply IH|done].
  - destruct (Text.strip_prefix true l s); [apply IH|done].
  - apply IH.
  - destruct (Text.span cls s) as [m r]. destruct (Text.is_empty m); [done|].
    apply IH.
  - destruct (Text.span cls s) as [m r] eqn:Hs.
    destruct (Text.is_empty m) eqn:Hm; [done|].
    destruct (Re.match_here pat r) as [caps'|] eqn:Hr; [|done].
    intros [= <-]. constructor; [|by eapply IH].
    split; [by destruct m|]. by apply span_spec in Hs as (?&_).
Qed.

Lemma search_captured pat s : ∀ caps,
  Re.search pat s = Some caps →
  Forall2 Wf.captured (Wf.group_classes pat) caps.
Proof.
  induction s as [|c s IH]; intros caps; simpl.
  - destruct (Re.match_here pat "") eqn:Hm; [|done].
    intros [= <-]. by eapply match_here_captured.
  - destruct (Re.match_here pat (String c s)) eqn:Hm.
    + intros [= <-]. by eapply match_here_captured.
    + apply IH.
Qed.

Lemma group1_captured pat cls s g :
  Wf.group_classes pat = [cls] → Re.group1 pat s = Some g → Wf.captured cls g.
Proof.
  unfold Re.group1. intros Hpat.
  destruct (Re.search pat s) as [[|g' [|? ?]]|] eqn:Hs; try done.
  intros [= <-]. apply search_captured in Hs. rewrite Hpat in Hs.
  by inv Hs.
Qed.

Lemma digit_val_range c : Text.is_digit c = true → 0 ≤ Text.digit_val c ≤ 9.
Proof.
  unfold Text.is_digit, Text.digit_val.
  intros [H1 H2]%andb_true_iff. apply N.leb_le in H1, H2. lia.
Qed.

Lemma int_acc_nonneg (s : string) : ∀ acc,
  Wf.all_chars Text.is_digit s = true → 0 ≤ acc → 0 ≤ Text.int_acc acc s.
Proof.
  induction s as [|c s IH]; intros acc; simpl; [done|].
  intros [Hc Hs]%andb_true_iff Hacc. apply IH; [done|].
  pose proof (digit_val_range c Hc). lia.
Qed.

Lemma count_dot_digits (s : string) :
  Wf.all_chars Re.digit_or_dot s = true →
  Text.count_char Text.is_dot s = O → Wf.all_chars Text.is_digit s = true.
Proof.
  induction s as [|c s IH]; simpl; [done|].
  unfold Re.digit_or_dot at 1.
  intros [Hc Hs]%andb_true_iff. destruct (Text.is_dot c); simpl; [done|].
  rewrite orb_false_r in Hc. intros Hn. by rewrite Hc, IH.
Qed.

Lemma count_char_app cls (s t : string) :
  Text.count_char cls (s +:+ t)
  = (Text.count_char cls s + Text.count_char cls t)%nat.
Proof.
  induction s as [|c s IH]; [done|].
  change (String c s +:+ t) with (String c (s +:+ t)). simpl.
  rewrite IH. lia.
Qed.

Lemma float_nonneg (s : string) (q : Q) :
  Wf.all_chars Re.digit_or_dot s = true →
  Text.float s = Ok q → (0 <= q)%Q.
Proof.
  unfold Text.float. intros Hall.
  destruct (Text.span Text.is_digit s) as [ip rest] eqn:Hspan.
  apply span_spec in Hspan as (Hip&->&Hrest).
  destruct (_ && _) eqn:Hok; [|done]. intros [= <-].
  apply andb_true_iff in Hok as [Hdots _]. apply Nat.leb_le in Hdots.
  rewrite Qred_correct. unfold Qle. simpl. rewrite Z.mul_1_r.
  apply int_acc_nonneg; [|done].
  rewrite all_chars_app, Hip. simpl.
  rewrite all_chars_app in Hall. apply andb_true_iff in Hall as [_ Hall].
  destruct Hrest as [->|(c&r'&->&Hc)]; [done|].
  simpl in Hall. apply andb_true_iff in Hall as [Hcd Hall].
  apply count_dot_digits; [done|].
  rewrite count_char_app in Hdots. simpl in Hdots.
  unfold Re.digit_or_dot in Hcd. rewrite Hc in Hcd. simpl in Hcd.
  rewrite Hcd in Hdots. lia.
Qed.

Lemma read_resolution_ok key block (r : option (Z * Z * Q)) :
  read_resolution (resolution_re key) block = Ok r →
  Wf.resolution_ok ((λ r, r.1.1) <$> r) ((λ r, r.1.2) <$> r) ((λ r, r.2) <$> r).
Proof.
  unfold read_resolution.
  destruct (Re.search (resolution_re key) block)
    as [[|w [|h [|f [|? ?]]]]|] eqn:Hs;
    try (intros [= <-]; by left).
  apply search_captured in Hs. simpl in Hs.
  inv Hs. inv H4. inv H6.
  destruct H2 as [_ Hw], H3 as [_ Hh], H4 as [_ Hf].
  destruct (Text.float f) as [q|] eqn:Hq; simpl; [|done].
  intros [= <-]. right. exists (Text.int w), (Text.int h), q. simpl.
  split_and!; try done.
  - by apply int_acc_nonneg.
  - by apply int_acc_nonneg.
  - by eapply float_nonneg.
Qed.

Lemma block_info_ok g block info :
  block_guid block = Some g → block_info g block = Ok info → Wf.format_ok info.
Proof.
  unfold block_info, block_guid. intros Hg.
  destruct (read_resolution out_re block) as [out|] eqn:Hout; simpl; [|done].
  destruct (read_resolution device_res_re block) as [dev|] eqn:Hdev; simpl;
    [|done].
  intros [= <-]. unfold Wf.format_ok, Wf.text_ok. simpl. split_and!.
  - by eapply (group1_captured guid_re).
  - intros s. by apply (group1_captured name_re).
  - intros s. by apply (group1_captured hwrev_re).
  - intros s. by apply (group1_captured fwrev_re).
  - exact (read_resolution_ok "Out" block out Hout).
  - exact (read_resolution_ok "DeviceRes" block dev Hdev).
Qed.

Lemma foldl_set_entry_elem (es : list (string * format_info)) : ∀ d kv,
  kv ∈ foldl Catalog.set_entry d es → kv ∈ d ∨ kv ∈ es.
Proof.
  induction es as [|[k v] es IH]; simpl; intros d kv; [by left|].
  intros [Hin|Hin]%IH; [|right; by right].
  apply dict_set_elem in Hin as [->|Hin]; [right; by left|by left].
Qed.

Lemma entry_block (b : string) (g : string) (info : format_info) :
  Catalog.entry b = Some (g, info) →
  block_guid b = Some g ∧ block_deprecated b = false ∧ block_info g b = Ok info.
Proof.
  unfold Catalog.entry, Catalog.inserted_guid.
  destruct (block_guid b) as [g'|]; simpl; [|done].
  destruct (block_deprecated b); simpl; [done|].
  destruct (block_info g' b) eqn:Hinfo; [|done].
  by intros [= <- <-].
Qed.

(** Every retained format is the dictionary of one block of the file. *)
Lemma parse_blocks_from_block blocks fmt :
  fmt ∈ parse_blocks blocks →
  ∃ b, b ∈ blocks ∧ block_guid b = Some (guid fmt)
       ∧ block_deprecated b = false ∧ block_info (guid fmt) b = Ok fmt.
Proof.
  destruct (all_or_fails blocks) as [Hall|Hex];
    [|rewrite (parse_blocks_fails _ Hex); by intros ?%elem_of_nil].
  destruct (parse_blocks_entries blocks Hall) as (st&_&->&Hok&Hd&_).
  intros [Hin _]%retained_spec; [|done].
  rewrite Hd in Hin. apply foldl_set_entry_elem in Hin as [?%elem_of_nil|Hin];
    [done|].
  apply list_elem_of_omap in Hin as (b&Hb&He).
  exists b. split; [done|]. by apply entry_block.
Qed.

End captures.

(** X2.  Every retained format is what the parser reads from one block of
    the file that has the format's GUID and no deprecation marker. *)
Theorem retained_formats_come_from_blocks (content : string) :
  Forall (λ fmt,
    ∃ b, b ∈ Re.format_blocks content
         ∧ FormatsDefParser.block_guid b = Some (FormatsDefParser.guid fmt)
         ∧ FormatsDefParser.block_deprecated b = false
         ∧ FormatsDefParser.block_info (FormatsDefParser.guid fmt) b = Ok fmt)
    (FormatsDefParser.parse_formats_file content).
Proof.
  apply Forall_forall. intros fmt Hin.
  unfold FormatsDefParser.parse_formats_file in Hin.
  by apply parse_blocks_from_block.
Qed.

(** X3.  In every retained format the GUID is a non-empty text without a
    closing brace, a name is non-empty and without a double quote, the
    revision ranges are non-empty and without a closing parenthesis, and
    width, height and frame rate are either all missing or all there with
    none of them negative; the same holds for the device resolution. *)
Theorem retained_formats_are_well_formed (content : string) :
  Forall Wf.format_ok (FormatsDefParser.parse_formats_file content).
Proof.
  apply Forall_forall. intros fmt Hin.
  unfold FormatsDefParser.parse_formats_file in Hin.
  apply parse_blocks_from_block in Hin as (b&_&Hg&_&Hinfo).
  by eapply block_info_ok.
Qed.


(** * Which formats are retained *)

Section which.
Import FormatsDefParser.

Lemma read_resolution_raises re (b w h f : string) :
  Re.search re b = Some [w; h; f] → Text.float f = Raise ValueError →
  read_resolution re b = Raise ValueError.
Proof. intros Hs Hf. unfold read_resolution. by rewrite Hs, Hf. Qed.

Lemma fails_of_bad_rate (b g w h f : string) :
  block_guid b = Some g → block_deprecated b = false →
  Re.search out_re b = Some [w; h; f]
  ∨ Re.search device_res_re b = Some [w; h; f] →
  Text.float f = Raise ValueError →
  Catalog.fails b = true.
Proof.
  intros Hg Hd Hs Hf. unfold Catalog.fails, Catalog.inserted_guid.
  rewrite Hg, Hd. unfold block_info.
  destruct Hs as [Hs|Hs].
  - by rewrite (read_resolution_raises _ _ _ _ _ Hs Hf).
  - rewrite (read_resolution_raises _ _ _ _ _ Hs Hf).
    by destruct (read_resolution out_re b).
Qed.




End which.

(** X4.  One block with a GUID and no deprecation marker whose [Out] or
    [DeviceRes] line carries a frame rate that [float] rejects makes the
    whole load fail: the catalog is empty, whatever the other blocks hold. *)
Theorem malformed_frame_rate_empties_catalog
    (content : string) (b g w h f : string) :
  b ∈ Re.format_blocks content →
  FormatsDefParser.block_guid b = Some g →
  FormatsDefParser.block_deprecated b = false →
  Re.search FormatsDefParser.out_re b = Some [w; h; f]
  ∨ Re.search FormatsDefParser.device_res_re b = Some [w; h; f] →
  Text.float f = Raise ValueError →
  FormatsDefParser.parse_formats_file content = [].
Proof.
  intros Hb Hg Hd Hs Hf. unfold FormatsDefParser.parse_formats_file.
  apply parse_blocks_fails, Exists_exists. exists b. split; [done|].
  by eapply fails_of_bad_rate.
Qed.

Lemma malformed_frame_rate_empties_catalog_witness :
  FormatsDefParser.parse_formats_file Samples2.bad_rate = []
  ∧ length (Re.format_blocks Samples2.bad_rate) = 2%nat.
Proof.
  split; [|vm_compute; reflexivity].
  pose (b := default EmptyString (Re.format_blocks Samples2.bad_rate !! 1%nat)).
  refine (malformed_frame_rate_empties_catalog Samples2.bad_rate
            b "B" "382" "288" "1.2.3" _ _ _ _ _).
  - vm_compute. apply list_elem_of_further, list_elem_of_here.
  - vm_compute; reflexivity.
  - vm_compute; reflexivity.
  - left. vm_compute; reflexivity.
  - vm_compute; reflexivity.
Defined.






(** * The outcome of grouping *)

Section grouping_outcome.
Import FormatsDefParser.

Lemma split_aux_captured (s : string) : ∀ tok,
  Wf.all_chars Wf.not_space tok = true →
  Forall (Wf.captured Wf.not_space) (Text.split_aux tok s).
Proof.
  induction s as [|c s IH]; intros tok Htok; simpl.
  - destruct (Text.is_empty tok) eqn:He; [constructor|].
    constructor; [|constructor]. split; [by destruct tok|done].
  - destruct (Text.is_space c) eqn:Hc.
    + destruct (Text.is_empty tok) eqn:He; [by apply IH|].
      constructor; [|by apply IH]. split; [by destruct tok|done].
    + apply IH. rewrite all_chars_app, Htok. simpl.
      unfold Wf.not_space. by rewrite Hc.
Qed.

Lemma model_of_captured fmt k :
  Catalog.model_of fmt = Some k → Wf.captured Wf.not_space k.
Proof.
  unfold Catalog.model_of. destruct (name fmt) as [n|]; simpl; [|done].
  pose proof (split_aux_captured n EmptyString eq_refl) as Hall.
  fold (Text.split n) in Hall.
  destruct (Text.split n) as [|m parts]; simpl; [done|].
  intros [= <-]. by inv Hall.
Qed.

Lemma group_loop_raises formats : ∀ models,
  Exists (λ fmt, name fmt = None) formats →
  group_loop models formats = Raise (KeyError "name").
Proof.
  induction formats as [|fmt formats IH]; intros models Hex; [by inv Hex|].
  simpl. unfold group_step at 1.
  destruct (name fmt) as [n|] eqn:Hn; [|done].
  assert (Exists (λ fmt, name fmt = None) formats) as Hex'
      by (inv Hex; first [congruence|done]).
  destruct (Text.split n) as [|m parts]; simpl; by apply IH.
Qed.

Lemma named_or_nameless formats :
  Forall (λ fmt, is_Some (name fmt)) formats
  ∨ Exists (λ fmt, name fmt = None) formats.
Proof.
  induction formats as [|fmt formats [IH|IH]].
  - by left.
  - destruct (name fmt) eqn:Hn; [left; by constructor|right; by left].
  - right. by right.
Qed.

End grouping_outcome.

(** X7.  Grouping by model either raises [KeyError('name')], which it does
    exactly when some format of the catalog has no name, or returns groups
    none of which is empty and whose keys are non-empty texts without any
    white space. *)
Theorem grouping_outcome (formats : list FormatsDefParser.format_info) :
  match FormatsDefParser.get_formats_grouped_by_model formats with
  | Ok models =>
      Forall (λ fmt, is_Some (FormatsDefParser.name fmt)) formats
      ∧ Forall (λ kl, Wf.captured Wf.not_space kl.1 ∧ kl.2 ≠ []) models
  | Raise e =>
      e = KeyError "name"
      ∧ Exists (λ fmt, FormatsDefParser.name fmt = None) formats
  end.
Proof.
  unfold FormatsDefParser.get_formats_grouped_by_model.
  destruct (named_or_nameless formats) as [Hall|Hex].
  - destruct (group_loop_ok formats [] [] Hall) as (models&->&Hnd&Hget).
    { split; [constructor|done]. }
    split; [done|]. apply Forall_forall. intros [k l] Hin. simpl.
    apply dict_get_elem in Hin; [|done]. rewrite Hget in Hin.
    unfold Catalog.group_of in Hin. simpl in Hin.
    destruct (filter _ formats) as [|fmt rest] eqn:Hf; [done|].
    injection Hin as <-. split; [|done].
    assert (fmt ∈ filter (λ fmt, Catalog.model_of fmt = Some k) formats) as Hfmt
        by (rewrite Hf; by left).
    apply list_elem_of_filter in Hfmt as [Hm _].
    by eapply model_of_captured.
  - by rewrite (group_loop_raises _ _ Hex).
Qed.


(** * The report on the catalog *)

Section report.
Import FormatsDefParser FormatsReport.

Lemma foldl_report_step blocks : ∀ acc n,
  foldl report_step (acc, n) blocks
  = (acc ++ omap block_detail blocks,
     n + deprecated_details (omap block_detail blocks)).
Proof.
  unfold deprecated_details.
  induction blocks as [|b blocks IH]; intros acc n; simpl.
  - by rewrite app_nil_r, Z.add_0_r.
  - unfold report_step at 2.
    destruct (block_detail b) as [d|]; simpl; [|apply IH].
    rewrite IH, <-app_assoc, filter_cons.
    destruct (decide (d_deprecated d = true)) as [Hd|Hd];
      destruct (d_deprecated d); try done; csimpl; f_equal; lia.
Qed.

Lemma dict_set_length {V} k (v : V) d :
  (length (dict_set k v d) ≤ S (length d))%nat.
Proof.
  induction d as [|[k' v'] d IH]; simpl; [lia|].
  case_decide; simpl; lia.
Qed.

Lemma foldl_set_entry_length (es : list (string * format_info)) : ∀ d,
  (length (foldl Catalog.set_entry d es) ≤ length d + length es)%nat.
Proof.
  induction es as [|[k v] es IH]; intros d; simpl; [lia|].
  etrans; [apply IH|].
  change (Catalog.set_entry d (k, v)) with (dict_set k v d).
  pose proof (dict_set_length k v d). lia.
Qed.

Lemma parse_blocks_length blocks :
  (length (parse_blocks blocks) ≤ length (Catalog.inserted_guids blocks))%nat.
Proof.
  destruct (all_or_fails blocks) as [Hall|Hex];
    [|rewrite (parse_blocks_fails _ Hex); simpl; lia].
  destruct (parse_blocks_entries blocks Hall) as (st&_&->&_&Hd&_).
  rewrite <-(entries_keys blocks Hall), length_fmap.
  unfold retained. rewrite length_fmap.
  etrans; [apply length_filter|]. rewrite Hd.
  etrans; [apply foldl_set_entry_length|]. simpl. lia.
Qed.

Lemma details_count blocks :
  guids_are_named blocks →
  Z.of_nat (length (omap block_detail blocks))
  = deprecated_details (omap block_detail blocks)
    + Z.of_nat (length (Catalog.inserted_guids blocks)).
Proof.
  unfold deprecated_details, Catalog.inserted_guids.
  induction 1 as [|b blocks Hb _ IH]; [done|].
  destruct (block_guid b) as [g|] eqn:Hg.
  - destruct Hb as [n Hn]; [done|].
    assert (block_detail b
            = Some {| d_guid := g; d_name := n;
                      d_deprecated := block_deprecated b;
                      d_replaces := Text.contains "replaces" (Text.lower b) |})
      as Hdet by (unfold block_detail; by rewrite Hg, Hn).
    assert (Catalog.inserted_guid b
            = if block_deprecated b then None else Some g) as Hins
      by (unfold Catalog.inserted_guid; by rewrite Hg).
    csimpl. rewrite Hdet, Hins, filter_cons. simpl.
    destruct (decide (block_deprecated b = true)) as [Hd|Hd];
      destruct (block_deprecated b); try done; csimpl; lia.
  - assert (block_detail b = None) as Hdet
      by (unfold block_detail; by rewrite Hg).
    assert (Catalog.inserted_guid b = None) as Hins
      by (unfold Catalog.inserted_guid; by rewrite Hg).
    csimpl. by rewrite Hdet, Hins.
Qed.

End report.

(** X8.  For a file that can be read, the report lists one entry for every
    block that has both a GUID and a name; the number of deprecated entries
    it counts lies between zero and the total; and when every block with a
    GUID also has a name, the number of retained formats plus the number of
    deprecated entries is at most the total. *)
Theorem report_numbers_are_consistent (content : string) :
  ∃ r,
    FormatsReport.get_filtered_formats_info (Some content)
      (FormatsDefParser.parse_formats_file content) = Some r
    ∧ FormatsReport.details r
      = omap FormatsReport.block_detail (Re.format_blocks content)
    ∧ FormatsReport.total_formats r
      = Z.of_nat (length (FormatsReport.details r))
    ∧ FormatsReport.deprecated_count r
      = FormatsReport.deprecated_details (FormatsReport.details r)
    ∧ 0 ≤ FormatsReport.deprecated_count r ≤ FormatsReport.total_formats r
    ∧ FormatsReport.filtered_formats r
      = Z.of_nat (length (FormatsDefParser.parse_formats_file content))
    ∧ (FormatsReport.guids_are_named (Re.format_blocks content) →
       FormatsReport.filtered_formats r + FormatsReport.deprecated_count r
       ≤ FormatsReport.total_formats r).
Proof.
  unfold FormatsReport.get_filtered_formats_info.
  rewrite foldl_report_step. simpl. eexists. split; [reflexivity|]. simpl.
  split_and!; try done.
  - unfold FormatsReport.deprecated_details. lia.
  - unfold FormatsReport.deprecated_details.
    pose proof (length_filter
                  (λ d, FormatsReport.d_deprecated d = true)
                  (omap FormatsReport.block_detail (Re.format_blocks content))).
    lia.
  - intros Hnamed. rewrite (details_count _ Hnamed).
    pose proof (parse_blocks_length (Re.format_blocks content)).
    unfold FormatsDefParser.parse_formats_file. lia.
Qed.


(** * Palettes *)

Section palettes.

Lemma get_palette_id_cases (palette_name : string) :
  (palette_name ∈ PaletteManager.get_available_palettes
   ∧ (1 ≤ PaletteManager.get_palette_id palette_name ≤ 11))
  ∨ ((palette_name ∉ PaletteManager.get_available_palettes)
     ∧ PaletteManager.get_palette_id palette_name
       = PaletteManager.DEFAULT_PALETTE_ID).
Proof.
  unfold PaletteManager.get_palette_id, PaletteManager.get_available_palettes,
    PaletteManager.PALETTE_MAP, PaletteManager.DEFAULT_PALETTE_ID.
  simpl.
  repeat (case_decide;
          [left; subst palette_name; split; [set_solver|simpl; lia]|]).
  right. split; [|done]. rewrite !elem_of_cons, elem_of_nil. naive_solver.
Qed.

End palettes.

(** X9.  Every palette name is resolved to an id between 1 and 11: a name
    outside the table to the default id 6, and two different names of the
    table to two different ids. *)
Theorem palette_ids_are_valid_and_distinct (n1 n2 : string) :
  1 ≤ PaletteManager.get_palette_id n1 ≤ 11
  ∧ (n1 ∉ PaletteManager.get_available_palettes →
     PaletteManager.get_palette_id n1 = PaletteManager.DEFAULT_PALETTE_ID)
  ∧ (n1 ∈ PaletteManager.get_available_palettes →
     n2 ∈ PaletteManager.get_available_palettes →
     PaletteManager.get_palette_id n1 = PaletteManager.get_palette_id n2 →
     n1 = n2).
Proof.
  split; [|split].
  - destruct (get_palette_id_cases n1) as [[_ ?]|[_ ->]]; [done|].
    unfold PaletteManager.DEFAULT_PALETTE_ID. lia.
  - intros Hout. by destruct (get_palette_id_cases n1) as [[? _]|[_ ?]].
  - unfold PaletteManager.get_available_palettes, PaletteManager.PALETTE_MAP.
    simpl. rewrite !elem_of_cons, !elem_of_nil.
    intros H1 H2.
    repeat (destruct H1 as [->|H1]); try done;
      repeat (destruct H2 as [->|H2]); try done;
      vm_compute; first [done|discriminate].
Qed.


(** X10.  Setting a palette never raises and changes no attribute.  Without
    a loaded library it calls nothing and reports the failure; with one it
    makes exactly one call, of [evo_irimager_set_palette] with the id of the
    name, an id between 1 and 11, and reports success exactly when that call
    returns 0. *)
Theorem set_palette_calls_once_with_a_valid_id
    (dev : Sdk.device) (palette_name : string) (a : ThermalCameraApp.t) :
  let id := PaletteManager.get_palette_id palette_name in
  1 ≤ id ≤ 11
  ∧ ThermalCameraApp.set_palette dev palette_name a
    = (Ok tt, a,
       if CameraManager.libir (ThermalCameraApp.camera_manager a) then
         [Call (Sdk.evo_irimager_set_palette id);
          Print (if bool_decide (Sdk.set_palette_status dev id = 0)
                 then MsgPaletteSet palette_name
                 else MsgPaletteError palette_name)]
       else [Print (MsgPaletteError palette_name)]).
Proof.
  intros id. split.
  - destruct (get_palette_id_cases palette_name) as [[_ ?]|[_ Hid]]; [done|].
    subst id. rewrite Hid. unfold PaletteManager.DEFAULT_PALETTE_ID. lia.
  - unfold ThermalCameraApp.set_palette, PaletteManager.set_palette. run_eff.
    fold id.
    destruct a as [[[] ? ? ?] ? ? ? ? ? ? ? ? ? ? ? ? ? ? ? ? ?]; simpl;
      [|done].
    by destruct (bool_decide _).
Qed.

(** * Opening the camera *)

Section open_outcomes.

Lemma camera_manager_init_camera_cases dev xml_path cm :
  let exact := FormatsDefParser.get_formats_by_resolution
                 (CameraManager.formats_parser cm)
                 (Sdk.thermal_image_size dev).1 (Sdk.thermal_image_size dev).2 in
  (* the library cannot be loaded *)
  (CameraManager.libir cm = false ∧ Sdk.dll_loads dev = false
   ∧ CameraManager.init_camera dev xml_path cm
     = (Ok None, cm, [Print MsgDllError]))
  (* the camera cannot be opened *)
  ∨ ((CameraManager.libir cm = true ∨ Sdk.dll_loads dev = true)
     ∧ Sdk.usb_init_status dev ≠ 0
     ∧ CameraManager.init_camera dev xml_path cm
       = (Ok None, CameraManager.set_libir true cm,
          [Call (Sdk.evo_irimager_usb_init xml_path);
           Print (MsgInitError (Sdk.usb_init_status dev))]))
  (* the camera is open *)
  ∨ ((CameraManager.libir cm = true ∨ Sdk.dll_loads dev = true)
     ∧ Sdk.usb_init_status dev = 0
     ∧ ∃ tr,
         CameraManager.init_camera dev xml_path cm
         = (Ok (Some
                  {| CameraManager.thermal_width := (Sdk.thermal_image_size dev).1;
                     CameraManager.thermal_height := (Sdk.thermal_image_size dev).2;
                     CameraManager.palette_width := (Sdk.palette_image_size dev).1;
                     CameraManager.palette_height := (Sdk.palette_image_size dev).2;
                     CameraManager.serial :=
                       if decide (Sdk.serial_status dev = 0)
                       then Sdk.serial_value dev else 0 |}),
            CameraManager.set_available_formats
              (match exact with
               | [] => CameraManager.formats_parser cm
               | _ => exact
               end)
              (CameraManager.set_libir true cm),
            tr)
         ∧ Session2.calls tr
           = [Call (Sdk.evo_irimager_usb_init xml_path);
              Call Sdk.evo_irimager_get_thermal_image_size;
              Call Sdk.evo_irimager_get_palette_image_size;
              Call Sdk.evo_irimager_get_serial]).
Proof.
  intros exact. subst exact.
  unfold CameraManager.init_camera, CameraManager.init_library. run_eff.
  destruct cm as [lib fp idx av]. simpl.
  destruct lib; simpl; [|destruct (Sdk.dll_loads dev) eqn:Hdll; simpl].
  3: { left. by split_and!. }
  all: destruct (decide (Sdk.usb_init_status dev ≠ 0)) as [Hs|Hs%dec_stable];
    simpl; [right; left; split_and!; by eauto|].
  all: right; right; split_and!; [by eauto|done|].
  all: destruct (Sdk.thermal_image_size dev) as [tw th],
         (Sdk.palette_image_size dev) as [pw ph]; simpl.
  all: destruct (FormatsDefParser.get_formats_by_resolution fp tw th); simpl;
    eexists; (split; [reflexivity|]);
    unfold Session2.calls; by rewrite !filter_cons.
Qed.

End open_outcomes.

(** X11.  When [CameraManager.init_camera] opens the camera it asks the
    library, in this order, to open, for the two image sizes and for the
    serial number, and it hands back the sizes the library reported.  The
    available formats are then the formats of the catalog that have exactly
    the thermal size, or the whole catalog when there is none: they are
    empty only when the catalog is empty. *)
Theorem available_formats_fall_back_to_catalog
    (dev : Sdk.device) (xml_path : string) (cm cm' : CameraManager.t)
    (ci : CameraManager.camera_info) (tr : list event) :
  CameraManager.init_camera dev xml_path cm = (Ok (Some ci), cm', tr) →
  let catalog := CameraManager.formats_parser cm in
  let exact := FormatsDefParser.get_formats_by_resolution catalog
                 (CameraManager.thermal_width ci)
                 (CameraManager.thermal_height ci) in
  (CameraManager.thermal_width ci, CameraManager.thermal_height ci)
  = Sdk.thermal_image_size dev
  ∧ (CameraManager.palette_width ci, CameraManager.palette_height ci)
    = Sdk.palette_image_size dev
  ∧ CameraManager.formats_parser cm' = catalog
  ∧ CameraManager.available_formats cm'
    = match exact with [] => catalog | _ => exact end
  ∧ (CameraManager.available_formats cm' = [] ↔ catalog = [])
  ∧ CameraManager.available_formats cm' ⊆ catalog
  ∧ Session2.calls tr
    = [Call (Sdk.evo_irimager_usb_init xml_path);
       Call Sdk.evo_irimager_get_thermal_image_size;
       Call Sdk.evo_irimager_get_palette_image_size;
       Call Sdk.evo_irimager_get_serial].
Proof.
  intros Hrun catalog exact.
  destruct (camera_manager_init_camera_cases dev xml_path cm)
    as [(_&_&H)|[(_&_&H)|(_&_&tr'&H&Hcalls)]];
    rewrite H in Hrun; try done.
  injection Hrun as <- <- <-. simpl. subst exact catalog.
  destruct (Sdk.thermal_image_size dev) as [tw th],
    (Sdk.palette_image_size dev) as [pw ph]. simpl.
  split_and!; try done.
  - rewrite get_formats_by_resolution_filter.
    destruct (CameraManager.formats_parser cm) as [|fmt l] eqn:Hcat; [done|].
    by destruct (filter _ (fmt :: l)).
  - rewrite get_formats_by_resolution_filter.
    destruct (filter _ _) as [|x l] eqn:Hf; [done|].
    rewrite <-Hf. intros y [_ Hy]%list_elem_of_filter. done.
Qed.

Lemma available_formats_fall_back_to_catalog_witness :
  ∃ cm' ci tr,
    CameraManager.init_camera Session2.small_camera "generic.xml"
      (CameraManager.new (Some Samples.catalog)) = (Ok (Some ci), cm', tr)
    ∧ FormatsDefParser.guid <$> CameraManager.available_formats cm'
      = ["A1"; "C3"].
Proof.
  destruct (CameraManager.init_camera Session2.small_camera "generic.xml"
              (CameraManager.new (Some Samples.catalog)))
    as [[[[ci|]|e] cm'] tr] eqn:Hrun;
    try (vm_compute in Hrun; discriminate Hrun).
  exists cm', ci, tr. split; [done|].
  destruct (available_formats_fall_back_to_catalog _ _ _ _ _ _ Hrun)
    as (_&_&_&->&_).
  assert (CameraManager.thermal_width ci = 8
          ∧ CameraManager.thermal_height ci = 6) as [-> ->]
    by (vm_compute in Hrun; by injection Hrun as <- _ _).
  vm_compute. reflexivity.
Defined.


(** * The window after the open *)

Section after_open.
Import ThermalCameraApp.

Lemma detect_camera_model_run (a : t) :
  ∃ r, detect_camera_model a = (r, a, [])
       ∧ ((∃ m, r = Ok m) ∨ r = Raise (KeyError "name")).
Proof.
  unfold detect_camera_model. run_eff.
  destruct (FormatsDefParser.get_formats_by_resolution _ _ _) as [|fmt l];
    simpl; [by eauto|].
  unfold getitem_name. destruct (FormatsDefParser.name fmt) as [n|]; simpl;
    [|by eauto].
  destruct (Text.split n); simpl; by eauto.
Qed.

Lemma add_items_run model_name formats (a : t) :
  Forall (λ fmt, is_Some (FormatsDefParser.name fmt)) formats →
  add_items model_name formats a
  = (Ok tt, a, Kept.combo_item model_name <$> formats).
Proof.
  induction 1 as [|fmt formats [n Hn] _ IH]; [done|].
  cbn [add_items]. run_eff. unfold getitem_name. rewrite Hn. simpl.
  change (add_items model_name formats a
          = (Ok tt, a, Kept.combo_item model_name <$> formats)) in IH.
  rewrite IH. simpl. unfold Kept.combo_item at 2. by rewrite Hn.
Qed.

Lemma add_groups_run grouped (a : t) :
  Forall (λ g, Forall (λ fmt, is_Some (FormatsDefParser.name fmt)) g.2) grouped →
  add_groups grouped a = (Ok tt, a, grouped ≫= Kept.group_items).
Proof.
  induction 1 as [|[k l] grouped Hl _ IH]; [done|].
  cbn [add_groups]. run_eff. rewrite (add_items_run k l a Hl).
  change (add_groups grouped a
          = (Ok tt, a, grouped ≫= Kept.group_items)) in IH.
  rewrite IH. simpl. done.
Qed.

Lemma dict_set_concat k fmt (d : list (string * list FormatsDefParser.format_info)) :
  concat (FormatsDefParser.dict_set k
            (default [] (FormatsDefParser.dict_get k d) ++ [fmt]) d).*2
  ≡ₚ concat d.*2 ++ [fmt].
Proof.
  induction d as [|[k' v'] d IH]; simpl; [done|].
  case_decide as Hk; simpl.
  - rewrite <-!app_assoc. apply Permutation_app_head, Permutation_app_comm.
  - rewrite IH. by rewrite app_assoc.
Qed.

Lemma group_loop_concat rest : ∀ models models',
  FormatsDefParser.group_loop models rest = Ok models' →
  concat models'.*2 ≡ₚ concat models.*2 ++ filter Kept.has_model rest.
Proof.
  induction rest as [|fmt rest IH]; simpl; intros models models'.
  { intros [= <-]. by rewrite filter_nil, app_nil_r. }
  unfold FormatsDefParser.group_step at 1. rewrite filter_cons.
  destruct (FormatsDefParser.name fmt) as [n|] eqn:Hn; simpl; [|done].
  assert (Catalog.model_of fmt = head (Text.split n)) as Hm
      by (unfold Catalog.model_of; by rewrite Hn).
  destruct (Text.split n) as [|m parts]; simpl in *.
  - intros Hrun.
    rewrite decide_False by (unfold Kept.has_model; rewrite Hm; by intros [? ?]).
    by apply IH.
  - intros Hrun.
    rewrite decide_True by (unfold Kept.has_model; by rewrite Hm).
    rewrite (IH _ _ Hrun), dict_set_concat, <-app_assoc. done.
Qed.

Lemma grouped_by_their_model formats grouped :
  FormatsDefParser.get_formats_grouped_by_model formats = Ok grouped →
  Forall (λ fmt, is_Some (FormatsDefParser.name fmt)) formats
  ∧ Forall (λ g, Forall (λ fmt, fmt ∈ formats ∧ Catalog.model_of fmt = Some g.1) g.2)
           grouped.
Proof.
  unfold FormatsDefParser.get_formats_grouped_by_model. intros Hrun.
  destruct (named_or_nameless formats) as [Hall|Hex];
    [|by rewrite (group_loop_raises _ _ Hex) in Hrun].
  split; [done|].
  destruct (group_loop_ok formats [] [] Hall) as (models&Hrun'&Hnd&Hget).
  { split; [constructor|done]. }
  rewrite Hrun in Hrun'. injection Hrun' as <-.
  apply Forall_forall. intros [k l] Hin. simpl.
  apply dict_get_elem in Hin; [|done]. rewrite Hget in Hin.
  unfold Catalog.group_of in Hin. simpl in Hin.
  destruct (filter _ formats) as [|x rest] eqn:Hf; [done|].
  injection Hin as <-. rewrite <-Hf. apply Forall_forall.
  intros fmt [? ?]%list_elem_of_filter. done.
Qed.

Lemma item_data_group_items grouped :
  omap Kept.item_data (grouped ≫= Kept.group_items) = concat grouped.*2.
Proof.
  induction grouped as [|[k l] grouped IH]; [done|].
  change (((k, l) :: grouped) ≫= Kept.group_items)
    with (Kept.group_items (k, l) ++ (grouped ≫= Kept.group_items)).
  rewrite omap_app, IH. simpl. f_equal.
  unfold Kept.group_items. simpl. induction l as [|fmt l IHl]; [done|].
  csimpl. by rewrite IHl.
Qed.

Lemma update_available_formats_run (a : t) :
  (∃ grouped,
     FormatsDefParser.get_formats_grouped_by_model (formats_parser a) = Ok grouped
     ∧ update_available_formats a
       = (Ok tt, a, Show ComboClear :: (grouped ≫= Kept.group_items)))
  ∨ (Exists Kept.nameless (formats_parser a)
     ∧ update_available_formats a
       = (Raise (KeyError "name"), a, [Show ComboClear])).
Proof.
  unfold update_available_formats. run_eff.
  destruct (FormatsDefParser.get_formats_grouped_by_model (formats_parser a))
    as [grouped|e] eqn:Hrun.
  - left. exists grouped. split; [done|].
    apply grouped_by_their_model in Hrun as [Hall Hgr].
    rewrite add_groups_run; [done|].
    eapply Forall_impl; [exact Hgr|]. intros g Hg. simpl.
    eapply Forall_impl; [exact Hg|]. intros fmt [Hin _]. simpl.
    by eapply Forall_forall in Hall.
  - right. pose proof (named_or_nameless (formats_parser a)) as [Hall|Hex].
    + unfold FormatsDefParser.get_formats_grouped_by_model in Hrun.
      destruct (group_loop_ok (formats_parser a) [] [] Hall) as (models&Hrun'&_).
      { split; [constructor|done]. }
      congruence.
    + split; [done|].
      unfold FormatsDefParser.get_formats_grouped_by_model in Hrun.
      rewrite (group_loop_raises _ _ Hex) in Hrun. by injection Hrun as <-.
Qed.

End after_open.

(** X13.  [update_available_formats] empties the format box and then, when
    every format of the catalog has a name, adds one item for each format
    whose name holds a token: the item carries the format itself and its
    text starts with the first token of that format's name.  The items are
    those of the whole catalog, whatever the resolution of the camera.
    When a format has no name the method raises [KeyError('name')] and
    leaves the box empty.  No attribute of the window changes. *)
Theorem format_box_lists_the_catalog (a : ThermalCameraApp.t) :
  let catalog := ThermalCameraApp.formats_parser a in
  (Forall (λ fmt, is_Some (FormatsDefParser.name fmt)) catalog
   ∧ ∃ items,
       ThermalCameraApp.update_available_formats a
       = (Ok tt, a, Show ComboClear :: items)
       ∧ Forall (λ e, ∃ k fmt, e = Kept.combo_item k fmt
                               ∧ Catalog.model_of fmt = Some k) items
       ∧ omap Kept.item_data items ≡ₚ filter Kept.has_model catalog)
  ∨ (Exists Kept.nameless catalog
     ∧ ThermalCameraApp.update_available_formats a
       = (Raise (KeyError "name"), a, [Show ComboClear])).
Proof.
  intros catalog.
  destruct (update_available_formats_run a) as [(grouped&Hgr&Hrun)|Hraise];
    [left|by right].
  pose proof (group_loop_concat _ _ _ Hgr) as Hperm.
  apply grouped_by_their_model in Hgr as [Hall Hmodels].
  split; [done|]. exists (grouped ≫= Kept.group_items). split_and!; [done| |].
  - apply Forall_forall. intros e Hin.
    apply list_elem_of_bind in Hin as ([k l]&Hin&Hkl).
    apply list_elem_of_fmap in Hin as (fmt&->&Hfmt). simpl in Hfmt.
    exists k, fmt. split; [done|].
    eapply Forall_forall in Hmodels; [|exact Hkl].
    eapply Forall_forall in Hmodels; [|exact Hfmt]. by destruct Hmodels.
  - by rewrite item_data_group_items, Hperm.
Qed.

(** * The outcomes of the open *)

Section window_open.
Import ThermalCameraApp.

Lemma named_and_nameless formats :
  Forall (λ fmt, is_Some (FormatsDefParser.name fmt)) formats →
  ¬ Exists Kept.nameless formats.
Proof.
  intros Hall Hex. apply Exists_exists in Hex as (fmt&Hin&Hnone).
  eapply Forall_forall in Hall as [n Hn]; [|exact Hin].
  unfold Kept.nameless in Hnone. congruence.
Qed.

Lemma detect_camera_model_named (a : t) :
  Forall (λ fmt, is_Some (FormatsDefParser.name fmt)) (formats_parser a) →
  ∃ m, detect_camera_model a = (Ok m, a, []).
Proof.
  intros Hall. unfold detect_camera_model. run_eff.
  destruct (FormatsDefParser.get_formats_by_resolution _ _ _) as [|fmt l] eqn:Hl;
    simpl; [by eauto|].
  assert (fmt ∈ formats_parser a) as Hin.
  { rewrite get_formats_by_resolution_filter in Hl.
    assert (fmt ∈ fmt :: l) as Hfmt by left. rewrite <-Hl in Hfmt.
    by apply list_elem_of_filter in Hfmt as [_ ?]. }
  eapply Forall_forall in Hall as [n Hn]; [|exact Hin].
  unfold getitem_name. rewrite Hn. simpl.
  destruct (Text.split n); simpl; by eauto.
Qed.

Lemma calls_group_items grouped :
  Session2.calls (grouped ≫= Kept.group_items) = [].
Proof.
  unfold Session2.calls. induction grouped as [|[k l] grouped IH]; [done|].
  change (((k, l) :: grouped) ≫= Kept.group_items)
    with (Kept.group_items (k, l) ++ (grouped ≫= Kept.group_items)).
  rewrite filter_app, IH, app_nil_r. unfold Kept.group_items. simpl.
  induction l as [|fmt l IHl]; [done|]. csimpl. by rewrite filter_cons.
Qed.

Ltac count_calls :=
  unfold Session2.calls; rewrite ?filter_cons, ?filter_app; simpl;
  rewrite ?filter_cons, ?filter_app; simpl;
  repeat match goal with
         | |- context [filter _ (?g ≫= Kept.group_items)] =>
             change (filter (λ e, Session2.is_call e = true) (g ≫= Kept.group_items))
               with (Session2.calls (g ≫= Kept.group_items));
             rewrite (calls_group_items g)
         end; simpl.

Lemma init_camera_after_open dev xml_path (a : t) ci cm' t0 :
  CameraManager.init_camera dev xml_path (camera_manager a)
  = (Ok (Some ci), cm', t0) →
  let a1 := set_sizes ci (set_camera_manager cm' a) in
  let tw := CameraManager.thermal_width ci in
  let th := CameraManager.thermal_height ci in
  let pw := CameraManager.palette_width ci in
  let ph := CameraManager.palette_height ci in
  (Exists Kept.nameless (formats_parser a)
   ∧ ∃ tr, init_camera dev xml_path a = (Raise (KeyError "name"), a1, t0 ++ tr)
           ∧ Session2.calls tr = [])
  ∨ (Forall (λ fmt, is_Some (FormatsDefParser.name fmt)) (formats_parser a)
     ∧ (tw * th < 0 ∨ pw * ph * 3 < 0)
     ∧ ∃ tr, init_camera dev xml_path a = (Raise ValueError, a1, t0 ++ tr)
             ∧ Session2.calls tr = [])
  ∨ (Forall (λ fmt, is_Some (FormatsDefParser.name fmt)) (formats_parser a)
     ∧ 0 ≤ tw * th ∧ 0 ≤ pw * ph * 3
     ∧ ∃ tr, init_camera dev xml_path a = (Ok true, Kept.opened ci cm' a, t0 ++ tr)
             ∧ Session2.calls tr
               = [Call (Sdk.evo_irimager_set_palette
                          (PaletteManager.get_palette_id (palette_combo a)));
                  Call (Sdk.evo_irimager_set_shutter_mode SHUTTER_MODE_AUTO)]).
Proof.
  intros Hcm a1 tw th pw ph.
  pose proof (camera_manager_init_camera_opened _ _ _ _ _ _ Hcm) as (_&Hlib&_).
  destruct (named_or_nameless (formats_parser a)) as [Hall|Hex].
  - right.
    destruct (detect_camera_model_named a1 Hall) as [m Hd].
    destruct (update_available_formats_run a1) as [(grouped&_&Hup)|(Hex&_)];
      [|by apply named_and_nameless in Hex].
    assert (∀ thermal img,
              set_palette dev (palette_combo a)
                (set_buffers thermal img Sdk.metadata0 a1)
              = (Ok tt, set_buffers thermal img Sdk.metadata0 a1,
                 [Call (Sdk.evo_irimager_set_palette
                          (PaletteManager.get_palette_id (palette_combo a)));
                  Print (if bool_decide
                              (Sdk.set_palette_status dev
                                 (PaletteManager.get_palette_id (palette_combo a)) = 0)
                         then MsgPaletteSet (palette_combo a)
                         else MsgPaletteError (palette_combo a))])) as Hpal.
    { intros thermal img. unfold set_palette, PaletteManager.set_palette.
      run_eff. simpl. rewrite Hlib. simpl. reflexivity. }
    subst a1. unfold init_camera. run_eff. rewrite Hcm. cbv beta iota.
    rewrite Hd. cbv beta iota. rewrite Hup. cbv beta iota.
    change (thermal_width (set_sizes ci (set_camera_manager cm' a))) with tw.
    change (thermal_height (set_sizes ci (set_camera_manager cm' a))) with th.
    change (palette_width (set_sizes ci (set_camera_manager cm' a))) with pw.
    change (palette_height (set_sizes ci (set_camera_manager cm' a))) with ph.
    change (palette_combo (set_sizes ci (set_camera_manager cm' a)))
      with (palette_combo a).
    unfold Np.zeros.
    destruct (decide (tw * th < 0)) as [Ht|Ht].
    { left. split; [done|]. split; [by left|]. eexists. simpl.
      split; [reflexivity|]. by count_calls. }
    destruct (decide (pw * ph * 3 < 0)) as [Hp|Hp].
    { left. split; [done|]. split; [by right|]. eexists. simpl.
      split; [reflexivity|]. by count_calls. }
    right. split; [done|]. split; [lia|]. split; [lia|].
    rewrite Hpal. cbv beta iota.
    destruct (bool_decide (Sdk.set_shutter_mode_status dev 1 ≠ 0));
      eexists; simpl; (split; [reflexivity|]); by count_calls.
  - left. split; [done|].
    destruct (detect_camera_model_run a1) as (r&Hd&[[m ->]| ->]).
    + destruct (update_available_formats_run a1) as [(g&Hg&_)|(_&Hup)].
      { apply grouped_by_their_model in Hg as [Hall _].
        by apply named_and_nameless in Hall. }
      subst a1. unfold init_camera. run_eff. rewrite Hcm. cbv beta iota.
      rewrite Hd. cbv beta iota. rewrite Hup. eexists. simpl.
      split; [reflexivity|]. by count_calls.
    + subst a1. unfold init_camera. run_eff. rewrite Hcm. cbv beta iota.
      rewrite Hd. eexists. simpl. split; [reflexivity|]. done.
Qed.

End window_open.


(** X15.  When [init_camera] of the window returns [True], the window holds
    the four sizes the library reported, a zeroed thermal buffer of width
    times height samples, a zeroed palette buffer of three bytes for each
    palette pixel and a fresh metadata record; the library handle is
    loaded; the counters, the recording state, the timers and the widgets
    are as before.  The library was called six times: the open, the two
    sizes, the serial number, the palette of the palette box and the
    automatic shutter mode. *)
Theorem open_allocates_buffers
    (dev : Sdk.device) (xml_path : string) (a a' : ThermalCameraApp.t)
    (tr : list event) :
  ThermalCameraApp.init_camera dev xml_path a = (Ok true, a', tr) →
  let tw := (Sdk.thermal_image_size dev).1 in
  let th := (Sdk.thermal_image_size dev).2 in
  let pw := (Sdk.palette_image_size dev).1 in
  let ph := (Sdk.palette_image_size dev).2 in
  (ThermalCameraApp.thermal_width a' = tw
   ∧ ThermalCameraApp.thermal_height a' = th
   ∧ ThermalCameraApp.palette_width a' = pw
   ∧ ThermalCameraApp.palette_height a' = ph)
  ∧ (ThermalCameraApp.np_thermal a' = replicate (Z.to_nat (tw * th)) 0
     ∧ Z.of_nat (length (ThermalCameraApp.np_thermal a')) = tw * th)
  ∧ (ThermalCameraApp.np_img a' = replicate (Z.to_nat (pw * ph * 3)) 0
     ∧ Z.of_nat (length (ThermalCameraApp.np_img a')) = pw * ph * 3)
  ∧ ThermalCameraApp.metadata a' = Sdk.metadata0
  ∧ CameraManager.libir (ThermalCameraApp.camera_manager a') = true
  ∧ (ThermalCameraApp.formats_parser a' = ThermalCameraApp.formats_parser a
     ∧ ThermalCameraApp.palette_combo a' = ThermalCameraApp.palette_combo a
     ∧ ThermalCameraApp.auto_calib_checkbox a'
       = ThermalCameraApp.auto_calib_checkbox a)
  ∧ (ThermalCameraApp.frame_count a' = ThermalCameraApp.frame_count a
     ∧ ThermalCameraApp.fps a' = ThermalCameraApp.fps a
     ∧ ThermalCameraApp.last_update_time a' = ThermalCameraApp.last_update_time a)
  ∧ (ThermalCameraApp.recording a' = ThermalCameraApp.recording a
     ∧ ThermalCameraApp.video_writer a' = ThermalCameraApp.video_writer a
     ∧ ThermalCameraApp.timer a' = ThermalCameraApp.timer a
     ∧ ThermalCameraApp.record_timer a' = ThermalCameraApp.record_timer a)
  ∧ Session2.calls tr
    = [Call (Sdk.evo_irimager_usb_init xml_path);
       Call Sdk.evo_irimager_get_thermal_image_size;
       Call Sdk.evo_irimager_get_palette_image_size;
       Call Sdk.evo_irimager_get_serial;
       Call (Sdk.evo_irimager_set_palette
               (PaletteManager.get_palette_id (ThermalCameraApp.palette_combo a)));
       Call (Sdk.evo_irimager_set_shutter_mode ThermalCameraApp.SHUTTER_MODE_AUTO)].
Proof.
  intros Hrun tw th pw ph.
  destruct (camera_manager_init_camera_cases dev xml_path
              (ThermalCameraApp.camera_manager a))
    as [(_&_&H)|[(_&_&H)|(_&_&t0&H&Hcalls)]].
  1,2: revert Hrun; unfold ThermalCameraApp.init_camera; run_eff; rewrite H;
    by intros [=].
  pose proof (camera_manager_init_camera_opened _ _ _ _ _ _ H) as (_&Hlib&_).
  destruct (init_camera_after_open _ _ _ _ _ _ H)
    as [(_&tr'&Hrun'&_)|[(_&_&tr'&Hrun'&_)|(_&Ht&Hp&tr'&Hrun'&Hc)]];
    rewrite Hrun' in Hrun; [discriminate Hrun..|].
  injection Hrun as <- <-. simpl in Ht, Hp. fold tw th in Ht. fold pw ph in Hp.
  split_and!; try done.
  - simpl. fold tw th. rewrite length_replicate. lia.
  - simpl. fold pw ph. rewrite length_replicate. lia.
  - unfold Session2.calls in *. rewrite filter_app, Hcalls, Hc. done.
Qed.

Lemma open_allocates_buffers_witness :
  ∃ a' tr,
    ThermalCameraApp.init_camera Session2.small_camera "generic.xml"
      (ThermalCameraApp.new (Some Samples.catalog) 0) = (Ok true, a', tr)
    ∧ length (ThermalCameraApp.np_thermal a') = 48%nat
    ∧ length (ThermalCameraApp.np_img a') = 144%nat.
Proof.
  destruct (ThermalCameraApp.init_camera Session2.small_camera "generic.xml"
              (ThermalCameraApp.new (Some Samples.catalog) 0))
    as [[r a'] tr] eqn:Hrun.
  assert (r = Ok true) as -> by (vm_compute in Hrun; by injection Hrun as <- _ _).
  exists a', tr. split; [done|].
  destruct (open_allocates_buffers _ _ _ _ _ Hrun) as (_&[-> _]&[-> _]&_).
  by vm_compute.
Defined.

(** * What the ticks keep *)

Section ticks_keep.
Import ThermalCameraApp.

Lemma update_frame_run (a : t) (f : Sdk.frame) (now : Q) :
  ∃ a' tr,
    update_frame f now a
    = (Ok tt, a',
       Call (Sdk.evo_irimager_get_thermal_palette_image_metadata
               (thermal_width a) (thermal_height a)
               (palette_width a) (palette_height a)) :: tr)
    ∧ Session2.calls tr = []
    ∧ Kept.same_session a a'
    ∧ np_thermal a' = Np.written 16 (Sdk.thermal_px f) (np_thermal a)
    ∧ np_img a' = Np.written 8 (Sdk.palette_px f) (np_img a)
    ∧ metadata a' = Sdk.meta f.
Proof.
  unfold update_frame, update_frame_body. run_eff.
  destruct (decide (Sdk.status f ≠ 0)) as [Hs|Hs]; simpl.
  { eexists _, _. split; [reflexivity|]. unfold Kept.same_session. simpl.
    rewrite !length_written. by split_and!. }
  destruct (Np.reshape_reversed _ _ _); simpl; cycle 1.
  { eexists _, _. split; [reflexivity|]. unfold Kept.same_session. simpl.
    rewrite !length_written. by split_and!. }
  destruct (recording a && video_writer a); simpl;
    destruct (Qgtb (now - last_update_time a) (1 # 2)); simpl;
    match goal with |- context [Np.getitem ?b ?i] => destruct (Np.getitem b i) end;
    simpl; eexists _, _; (split; [reflexivity|]);
    unfold Kept.same_session; simpl; rewrite !length_written; by split_and!.
Qed.

Lemma same_session_trans a b c :
  Kept.same_session a b → Kept.same_session b c → Kept.same_session a c.
Proof. unfold Kept.same_session. intros ? ?. split_and!; intuition congruence. Qed.

Lemma same_session_refl a : Kept.same_session a a.
Proof. unfold Kept.same_session. by split_and!. Qed.

End ticks_keep.

(** X16.  The timer callback never raises, whatever the library answers.
    While the timer is active every tick asks the library for one frame,
    with the four sizes of the window, and makes no other call; with the
    timer stopped nothing happens at all.  Through any number of ticks the
    camera manager, the catalog, the widgets, the four sizes, the lengths of
    the two buffers, the recording state and the timers stay as they
    were. *)
Theorem ticks_keep_the_session
    (l : list (Sdk.frame * Q)) (a : ThermalCameraApp.t) :
  ∃ a' tr,
    ThermalCameraApp.ticks l a = (Ok tt, a', tr)
    ∧ Kept.same_session a a'
    ∧ Session2.calls tr
      = (if ThermalCameraApp.timer a
         then replicate (length l)
                (Call (Sdk.evo_irimager_get_thermal_palette_image_metadata
                         (ThermalCameraApp.thermal_width a)
                         (ThermalCameraApp.thermal_height a)
                         (ThermalCameraApp.palette_width a)
                         (ThermalCameraApp.palette_height a)))
         else [])
    ∧ (ThermalCameraApp.timer a = false → a' = a ∧ tr = []).
Proof.
  revert a. induction l as [|[f now] l IH]; intros a.
  { exists a, [].
    split_and!; [done|apply same_session_refl| |done].
    by destruct (ThermalCameraApp.timer a). }
  destruct (ThermalCameraApp.timer a) eqn:Ht.
  - destruct (update_frame_run a f now) as (a1&t1&Hrun&Hc1&Hs1&_).
    destruct (IH a1) as (a'&tr&Hrun'&Hs'&Hc'&_).
    eexists a', _. rewrite (ticks_cons _ _ _ _ _ _ _ Ht Hrun), Hrun'.
    split; [reflexivity|]. split; [by eapply same_session_trans|].
    split; [|done].
    unfold Session2.calls in *. rewrite filter_app, filter_cons. simpl.
    rewrite Hc1, Hc'. simpl.
    destruct Hs1 as (_&_&_&_&->&->&->&->&_&_&_&_&->&_). by rewrite Ht.
  - destruct (IH a) as (a'&tr&Hrun'&Hs'&Hc'&Hstop).
    destruct (Hstop Ht) as [-> ->].
    exists a, []. split_and!; [|apply same_session_refl|done|done].
    cbn [ThermalCameraApp.ticks]. run_eff. rewrite Ht. simpl.
    by rewrite Hrun'.
Qed.

(** * The picture and the video frame *)

Section picture.
Import ThermalCameraApp.



End picture.


(** * Closing the window *)

Section closing.
Import ThermalCameraApp.

Lemma ticks_stopped (l : list (Sdk.frame * Q)) (a : t) :
  timer a = false → ticks l a = (Ok tt, a, []).
Proof.
  intros Ht. induction l as [|[f now] l IH]; [done|].
  cbn [ticks]. run_eff. rewrite Ht. simpl.
  change (ticks l a = (Ok tt, a, [])) in IH. by rewrite IH.
Qed.

Lemma stop_video_recording_run (a : t) :
  stop_video_recording a
  = if recording a then
      (Ok tt, set_video false false false a,
       if video_writer a then [Show VideoRelease; Print MsgVideoSaved] else [])
    else (Ok tt, a, []).
Proof.
  unfold stop_video_recording. run_eff.
  destruct (recording a); simpl; [|done].
  by destruct (video_writer a).
Qed.

End closing.

(** X18.  [closeEvent] never raises.  It stops both timers and ends the
    recording; it releases the video writer exactly when a recording was
    running with an open writer, and calls [evo_irimager_terminate] exactly
    when the library is loaded, as its only call to the library.  The
    sizes, the buffers and the counters stay as they were, and no tick
    after it acquires a frame. *)
Theorem close_stops_the_session (a : ThermalCameraApp.t) :
  ∃ a1 tr,
    ThermalCameraApp.closeEvent a = (Ok tt, a1, tr)
    ∧ (ThermalCameraApp.timer a1 = false
       ∧ ThermalCameraApp.record_timer a1 = false
       ∧ ThermalCameraApp.recording a1 = false
       ∧ ThermalCameraApp.video_writer a1
         = (ThermalCameraApp.video_writer a && negb (ThermalCameraApp.recording a)))
    ∧ (Show VideoRelease ∈ tr
       ↔ ThermalCameraApp.recording a = true
         ∧ ThermalCameraApp.video_writer a = true)
    ∧ Session2.calls tr
      = (if CameraManager.libir (ThermalCameraApp.camera_manager a)
         then [Call Sdk.evo_irimager_terminate] else [])
    ∧ (ThermalCameraApp.camera_manager a1 = ThermalCameraApp.camera_manager a
       ∧ ThermalCameraApp.np_thermal a1 = ThermalCameraApp.np_thermal a
       ∧ ThermalCameraApp.np_img a1 = ThermalCameraApp.np_img a
       ∧ ThermalCameraApp.frame_count a1 = ThermalCameraApp.frame_count a
       ∧ ThermalCameraApp.fps a1 = ThermalCameraApp.fps a)
    ∧ ∀ l, ThermalCameraApp.ticks l a1 = (Ok tt, a1, []).
Proof.
  unfold ThermalCameraApp.closeEvent, ThermalCameraApp.stop_video_recording,
    CameraManager.deinit_camera.
  run_eff.
  destruct a as [[[] ? ? ?] ? ? ? ? ? ? ? ? ? ? ? ? ? [] [] ? ?];
    simpl; eexists _, _; (split; [reflexivity|]); simpl;
    (split_and!; try done;
     [rewrite ?elem_of_cons, ?elem_of_nil;
      split; [intros H; repeat (destruct H as [H|H]; try discriminate H; try done);
              done
             |intros [? ?]; first [discriminate|tauto]]
     |intros l; by apply ticks_stopped]).
Qed.

(** X19.  [stop_video_recording] never raises and does nothing unless a
    recording is running.  Otherwise it ends the recording, stops the
    recording timer and, when the writer is open, releases it and reports
    the saved file.  A second call right after the first does nothing, so
    the writer is released at most once. *)
Theorem stop_video_recording_releases_once (a : ThermalCameraApp.t) :
  ∃ a1 tr,
    ThermalCameraApp.stop_video_recording a = (Ok tt, a1, tr)
    ∧ ThermalCameraApp.stop_video_recording a1 = (Ok tt, a1, [])
    ∧ ThermalCameraApp.recording a1 = false
    ∧ (ThermalCameraApp.recording a = false → a1 = a ∧ tr = [])
    ∧ (ThermalCameraApp.recording a = true →
       ThermalCameraApp.record_timer a1 = false
       ∧ ThermalCameraApp.video_writer a1 = false
       ∧ tr = if ThermalCameraApp.video_writer a
              then [Show VideoRelease; Print MsgVideoSaved] else [])
    ∧ ThermalCameraApp.timer a1 = ThermalCameraApp.timer a.
Proof.
  rewrite stop_video_recording_run.
  destruct (ThermalCameraApp.recording a) eqn:Hrec.
  - eexists _, _. split; [reflexivity|].
    rewrite stop_video_recording_run. simpl. by split_and!.
  - exists a, []. split; [done|].
    rewrite stop_video_recording_run, Hrec. by split_and!.
Qed.

(** * Counters and bounds *)

Section counters.
Import ThermalCameraApp.

Lemma rate_positive (n : Z) (elapsed : Q) :
  0 < n → (1 # 2 < elapsed)%Q → (0 < inject_Z n / elapsed)%Q.
Proof.
  intros Hn He.
  assert (0 < elapsed)%Q as Hpos by (eapply Qlt_trans; [|exact He]; done).
  apply Qlt_shift_div_l; [done|]. rewrite Qmult_0_l.
  unfold Qlt, inject_Z. simpl. lia.
Qed.

End counters.

(** X20.  Through any number of ticks the frame counter is never negative
    and grows by at most one for each tick, every frame rate the window
    shows is positive, and the stored rate stays non-negative. *)
Theorem frame_rate_is_positive
    (l : list (Sdk.frame * Q)) (a : ThermalCameraApp.t) :
  0 ≤ ThermalCameraApp.frame_count a →
  ∃ a' tr,
    ThermalCameraApp.ticks l a = (Ok tt, a', tr)
    ∧ 0 ≤ ThermalCameraApp.frame_count a'
          ≤ ThermalCameraApp.frame_count a + Z.of_nat (length l)
    ∧ (∀ x, Session.shows_fps tr x → (0 < x)%Q)
    ∧ ((0 <= ThermalCameraApp.fps a)%Q → (0 <= ThermalCameraApp.fps a')%Q).
Proof.
  revert a. induction l as [|[f now] l IH]; intros a Hfc.
  { exists a, []. split_and!; [done|lia|simpl; lia| |done].
    intros x Hx. by apply elem_of_nil in Hx. }
  destruct (ThermalCameraApp.timer a) eqn:Ht; cycle 1.
  { exists a, []. rewrite ticks_stopped by done.
    split_and!; [done|lia|simpl length; lia| |done].
    intros x Hx. by apply elem_of_nil in Hx. }
  destruct (update_frame_fps a f now) as (a1&t1&Hrun&Hcases).
  assert (0 ≤ ThermalCameraApp.frame_count a1
              ≤ ThermalCameraApp.frame_count a + 1
          ∧ (∀ x, Session.shows_fps t1 x → (0 < x)%Q)
          ∧ ((0 <= ThermalCameraApp.fps a)%Q
             → (0 <= ThermalCameraApp.fps a1)%Q)) as (Hfc1&Hpos1&Hfps1).
  { destruct Hcases as [(_&->&->&_&Hno)|[(_&_&->&->&_&Hno)|(_&Hlt&->&->&_&Hx)]].
    - split_and!; [lia|lia| |done]. intros x Hshow. by apply Hno in Hshow.
    - split_and!; [lia|lia| |done]. intros x Hshow. by apply Hno in Hshow.
    - assert (0 < inject_Z (ThermalCameraApp.frame_count a + 1)
                  / (now - ThermalCameraApp.last_update_time a))%Q
        as Hrate by (apply rate_positive; [lia|done]).
      split_and!; [lia|lia| |].
      + intros x Hshow. apply Hx in Hshow. by subst x.
      + intros _. by apply Qlt_le_weak. }
  destruct (IH a1) as (a'&tr&Hrun'&Hfc'&Hpos'&Hfps'); [lia|].
  exists a', (t1 ++ tr). rewrite (ticks_cons _ _ _ _ _ _ _ Ht Hrun), Hrun'.
  split_and!; [done|lia|simpl length; lia| |tauto].
  intros x [?|?]%elem_of_app; [by apply Hpos1|by apply Hpos'].
Qed.

Lemma frame_rate_is_positive_witness :
  ∃ a' tr,
    ThermalCameraApp.ticks [(Samples.flat_frame, 1%Q)] Samples.small_app
    = (Ok tt, a', tr)
    ∧ 0 ≤ ThermalCameraApp.frame_count a' ≤ 1.
Proof.
  destruct (frame_rate_is_positive [(Samples.flat_frame, 1%Q)] Samples.small_app)
    as (a'&tr&Hrun&Hfc&_).
  - vm_compute. discriminate.
  - exists a', tr. split; [done|].
    change (ThermalCameraApp.frame_count Samples.small_app) with 0 in Hfc.
    simpl in Hfc. lia.
Defined.



(** X22.  [detect_camera_model] changes nothing and looks only at the first
    format of the catalog that has the thermal size of the window.  Without
    such a format it returns the text for an unknown model; when that
    format has no name it raises [KeyError('name')]; when its name holds no
    token it returns the text for an unknown name.  Otherwise it returns
    the first token of the name, and that model is then one of the groups
    of the format box, with this format in it. *)
Theorem detected_model_has_a_group (a : ThermalCameraApp.t) :
  let catalog := ThermalCameraApp.formats_parser a in
  match FormatsDefParser.get_formats_by_resolution catalog
          (ThermalCameraApp.thermal_width a) (ThermalCameraApp.thermal_height a)
  with
  | [] =>
      ThermalCameraApp.detect_camera_model a
      = (Ok ThermalCameraApp.UNKNOWN_MODEL, a, [])
  | fmt :: _ =>
      fmt ∈ catalog
      ∧ match FormatsDefParser.name fmt, Catalog.model_of fmt with
        | None, _ =>
            ThermalCameraApp.detect_camera_model a
            = (Raise (KeyError "name"), a, [])
        | Some _, None =>
            ThermalCameraApp.detect_camera_model a
            = (Ok ThermalCameraApp.UNKNOWN, a, [])
        | Some _, Some m =>
            ThermalCameraApp.detect_camera_model a = (Ok m, a, [])
            ∧ ∀ grouped,
                FormatsDefParser.get_formats_grouped_by_model catalog = Ok grouped →
                ∃ l, (m, l) ∈ grouped ∧ fmt ∈ l
        end
  end.
Proof.
  intros catalog. unfold ThermalCameraApp.detect_camera_model. run_eff.
  fold catalog.
  destruct (FormatsDefParser.get_formats_by_resolution _ _ _) as [|fmt rest] eqn:Hl;
    [done|].
  assert (fmt ∈ catalog) as Hin.
  { rewrite get_formats_by_resolution_filter in Hl.
    assert (fmt ∈ fmt :: rest) as Hfmt by left. rewrite <-Hl in Hfmt.
    by apply list_elem_of_filter in Hfmt as [_ ?]. }
  split; [done|]. unfold ThermalCameraApp.getitem_name, Catalog.model_of.
  destruct (FormatsDefParser.name fmt) as [n|] eqn:Hn; simpl; [|done].
  destruct (Text.split n) as [|m parts] eqn:Hsplit; simpl; [done|].
  split; [done|]. intros grouped Hgr.
  assert (Catalog.model_of fmt = Some m) as Hm
      by (unfold Catalog.model_of; rewrite Hn; simpl; by rewrite Hsplit).
  unfold FormatsDefParser.get_formats_grouped_by_model in Hgr.
  destruct (named_or_nameless catalog) as [Hall|Hex];
    [|by rewrite (group_loop_raises _ _ Hex) in Hgr].
  destruct (group_loop_ok catalog [] [] Hall) as (models&Hrun&Hnd&Hget).
  { split; [constructor|done]. }
  rewrite Hgr in Hrun. injection Hrun as <-. simpl in Hget.
  specialize (Hget m). unfold Catalog.group_of in Hget.
  assert (fmt ∈ filter (λ fmt, Catalog.model_of fmt = Some m) catalog) as Hf
      by (by apply list_elem_of_filter).
  destruct (filter _ catalog) as [|x l] eqn:Hfilter; [by apply elem_of_nil in Hf|].
  exists (x :: l). split; [|done]. by apply dict_get_elem.
Qed.

(** * A session that was opened *)

Section opened_session.
Import ThermalCameraApp.

Lemma update_frame_ready (a : t) (f : Sdk.frame) (now : Q) :
  Kept.ready a →
  ∃ a' tr,
    update_frame f now a = (Ok tt, a', tr)
    ∧ Kept.ready a'
    ∧ filter (λ e, Kept.update_error e = true) tr = []
    ∧ length (filter (λ e, Kept.temp_shown e = true) tr)
      = length (filter (λ t, Kept.delivered t = true) [(f, now)]).
Proof.
  intros (Ht&Hw&Hh&Hpw&Hph&Hlen&Himg).
  destruct (update_frame_run a f now) as (a'&tr&Hrun&_&Hsame&_).
  assert (Kept.ready a') as Hready.
  { destruct Hsame as (_&_&_&_&Hw'&Hh'&Hpw'&Hph'&Hl1&Hl2&_&_&Ht'&_).
    unfold Kept.ready. rewrite Hw', Hh', Hpw', Hph', Hl1, Hl2, Ht'. done. }
  rewrite filter_cons, filter_nil.
  destruct (decide (Kept.delivered (f, now) = true)) as [Hs|Hs];
    unfold Kept.delivered in Hs; simpl in Hs;
    [apply bool_decide_eq_true in Hs
    |apply not_true_is_false, bool_decide_eq_false in Hs].
  - destruct (getitem_in_range
                (Np.written 16 (Sdk.thermal_px f) (np_thermal a))
                (center_index a)) as (raw&_&Hget).
    { rewrite length_written, Hlen. unfold center_index.
      pose proof (center_index_in_range _ _ Hw Hh). lia. }
    eexists a', _. split; [exact Hrun|]. split; [done|].
    clear Hready Hsame. revert Hrun.
    unfold update_frame, update_frame_body. run_eff.
    rewrite decide_False by (by intros ?). simpl.
    unfold Np.reshape_reversed. rewrite !length_written.
    rewrite decide_True by done. simpl.
    destruct (recording a && video_writer a); simpl;
      destruct (Qgtb (now - last_update_time a) (1 # 2)); simpl;
      change (center_index (set_fps_state _ _ _ _)) with (center_index a);
      rewrite Hget; simpl; intros [= _ <-]; by rewrite !filter_cons.
  - eexists a', _. split; [exact Hrun|]. split; [done|].
    revert Hrun. unfold update_frame, update_frame_body. run_eff.
    rewrite decide_True by done. simpl. intros [= <- <-].
    by rewrite !filter_cons.
Qed.

End opened_session.

(** X23.  In a session that [init_camera] opened with a positive thermal
    width and height and non-negative palette sizes, and whose timer was
    started, the ticks never reach the [except] branch of [update_frame]:
    no update error is ever printed.  Every tick on which the library
    returns 0 sets the centre-temperature label once, and the other ticks
    do not set it. *)
Theorem opened_session_reports_no_update_error
    (dev : Sdk.device) (xml_path : string) (a a0 : ThermalCameraApp.t)
    (tr0 : list event) (l : list (Sdk.frame * Q)) :
  ThermalCameraApp.init_camera dev xml_path a = (Ok true, a0, tr0) →
  0 < (Sdk.thermal_image_size dev).1 →
  0 < (Sdk.thermal_image_size dev).2 →
  0 ≤ (Sdk.palette_image_size dev).1 →
  0 ≤ (Sdk.palette_image_size dev).2 →
  ∃ a' tr,
    ThermalCameraApp.ticks l (ThermalCameraApp.set_timer true a0) = (Ok tt, a', tr)
    ∧ filter (λ e, Kept.update_error e = true) tr = []
    ∧ length (filter (λ e, Kept.temp_shown e = true) tr)
      = length (filter (λ t, Kept.delivered t = true) l).
Proof.
  intros Hrun Htw Hth Hpw Hph.
  assert (Kept.ready (ThermalCameraApp.set_timer true a0)) as Hready.
  { destruct (camera_manager_init_camera_cases dev xml_path
                (ThermalCameraApp.camera_manager a))
      as [(_&_&H)|[(_&_&H)|(_&_&t0&H&_)]].
    1,2: revert Hrun; unfold ThermalCameraApp.init_camera; run_eff; rewrite H;
      by intros [=].
    destruct (init_camera_after_open _ _ _ _ _ _ H)
      as [(_&tr'&Hrun'&_)|[(_&_&tr'&Hrun'&_)|(_&Ht&Hp&tr'&Hrun'&_)]];
      rewrite Hrun' in Hrun; [discriminate Hrun..|].
    injection Hrun as <- _. unfold Kept.ready. simpl in *.
    rewrite !length_replicate. split_and!; try done; lia. }
  clear Hrun. revert Hready.
  generalize (ThermalCameraApp.set_timer true a0). clear a a0 tr0.
  induction l as [|[f now] l IH]; intros a Hready.
  { by exists a, []. }
  destruct (update_frame_ready a f now Hready) as (a1&t1&Hrun1&Hready1&Hno1&Hn1).
  destruct (IH a1 Hready1) as (a'&tr&Hrun'&Hno'&Hn').
  exists a', (t1 ++ tr).
  rewrite (ticks_cons _ _ _ _ _ _ _ (proj1 Hready) Hrun1), Hrun'.
  split; [done|]. rewrite !filter_app, Hno1, Hno'. split; [done|].
  rewrite length_app, Hn1, Hn'.
  change ((f, now) :: l) with ([(f, now)] ++ l).
  by rewrite filter_app, length_app.
Qed.

Lemma opened_session_reports_no_update_error_witness :
  ∃ a0 tr0 a' tr,
    ThermalCameraApp.init_camera Session2.small_camera "generic.xml"
      (ThermalCameraApp.new (Some Samples.catalog) 0) = (Ok true, a0, tr0)
    ∧ ThermalCameraApp.ticks [(Samples.flat_frame, 1%Q); (Samples.failed_frame, 2%Q)]
        (ThermalCameraApp.set_timer true a0) = (Ok tt, a', tr)
    ∧ length (filter (λ e, Kept.temp_shown e = true) tr) = 1%nat.
Proof.
  destruct (ThermalCameraApp.init_camera Session2.small_camera "generic.xml"
              (ThermalCameraApp.new (Some Samples.catalog) 0))
    as [[r a0] tr0] eqn:Hrun.
  assert (r = Ok true) as -> by (vm_compute in Hrun; by injection Hrun as <- _ _).
  destruct (opened_session_reports_no_update_error _ _ _ _ _
              [(Samples.flat_frame, 1%Q); (Samples.failed_frame, 2%Q)] Hrun)
    as (a'&tr&Hticks&_&Hn); [by vm_compute..|].
  exists a0, tr0, a', tr. split; [done|]. split; [done|].
  rewrite Hn. by vm_compute.
Defined.
